(** * gimme.js: the request executor

    A shallow embedding of [src/gimme.js], the single function [request],
    and the properties of its request lifecycle: option defaults, URL and
    port resolution, body encoding, the redirect loop, response
    aggregation, timeout and error handling.

    Conventions.
    - A JavaScript string is represented by its UTF-8 text (a Rocq
      [string], one [ascii] per octet).  [Js.length] is the JavaScript
      [.length] (UTF-16 code units), [Js.byteLength] the number of octets
      the text takes on the wire.
    - JavaScript numbers that the code handles are integers ([Z]), those
      that a double represents; [Js.decrement] is the code's [--] on them,
      exact up to 2^53 and rounded beyond.
    - [undefined] and [null] are [None] where a field can hold them.
    - The platform modules the code requires ([url], [querystring]) and
      the built-ins it calls ([JSON.stringify], [toUpperCase]) are an
      interface, [Platform]; the theorems hold for every implementation,
      and [node] is a reference implementation.
    - The transport ([http]/[https]) is an oracle, [Network]: for each
      attempt it gives the events that the request object emits. *)

From Stdlib Require Import String Ascii List ZArith Lia Bool DecimalString.
Import ListNotations.

Local Open Scope string_scope.
Local Open Scope Z_scope.

(** ** JavaScript strings and values *)

Module Js.

(** The double quote, for JSON texts. *)
Definition dquote : string := String "034"%char EmptyString.

(** Number of UTF-16 code units of one UTF-8 octet: a continuation octet
    counts for nothing, the lead octet of a four-octet sequence for a
    surrogate pair. *)
Definition units (c : ascii) : nat :=
  let n := nat_of_ascii c in
  if (n <? 128)%nat then 1%nat
  else if (n <? 192)%nat then 0%nat
  else if (n <? 240)%nat then 1%nat
  else 2%nat.

(** [s.length] *)
Fixpoint length (s : string) : nat :=
  match s with
  | EmptyString => 0%nat
  | String c s' => (units c + length s')%nat
  end.

(** Octets of the text when written with the default encoding. *)
Definition byteLength (s : string) : nat := String.length s.

Definition upper (c : ascii) : ascii :=
  let n := nat_of_ascii c in
  if ((97 <=? n) && (n <=? 122))%nat then ascii_of_nat (n - 32) else c.

Definition lower (c : ascii) : ascii :=
  let n := nat_of_ascii c in
  if ((65 <=? n) && (n <=? 90))%nat then ascii_of_nat (n + 32) else c.

Fixpoint map (f : ascii -> ascii) (s : string) : string :=
  match s with
  | EmptyString => EmptyString
  | String c s' => String (f c) (map f s')
  end.

(** The letters a-z of a text made capital, and A-Z made small: what
    [toUpperCase] and [toLowerCase] compute on ASCII text.  On other text
    the built-in functions map more letters; [toUpperCase] itself is a
    capability of the platform, below. *)
Definition asciiUpperCase (s : string) : string := map upper s.

Definition asciiLowerCase (s : string) : string := map lower s.

(** The text is ASCII: every octet is below 128. *)
Fixpoint isAscii (s : string) : bool :=
  match s with
  | EmptyString => true
  | String c s' => (nat_of_ascii c <? 128)%nat && isAscii s'
  end.

(** [s.startsWith(p)] *)
Definition startsWith (s p : string) : bool := String.prefix p s.

(** The largest integer up to which every integer is a double: 2^53. *)
Definition exact : Z := 9007199254740992.

(** The double nearest to an integer, ties to the even mantissa (below
    the range where a double overflows). *)
Definition round (z : Z) : Z :=
  let a := Z.abs z in
  if a <=? exact then z
  else
    let q := 2 ^ (Z.log2 a - 52) in
    let m := a / q in
    let r := a mod q in
    let m' :=
      if 2 * r <? q then m
      else if q <? 2 * r then m + 1
      else if Z.even m then m else m + 1 in
    Z.sgn z * (m' * q).

(** [--n]: the double nearest to [n - 1]. *)
Definition decrement (n : Z) : Z := round (n - 1).

(** [String(n)] for an integer below 10^21 in absolute value, where every
    digit is written; a status code is such a number. *)
Definition ofNumber (n : Z) : string := NilZero.string_of_int (Z.to_int n).

(** A string in a boolean position: only the empty string is falsy. *)
Definition truthy (s : option string) : bool :=
  match s with
  | Some (String _ _) => true
  | _ => false
  end.

(** [x + s] where [x] is a string or [null]. *)
Definition add (x : option string) (s : string) : string :=
  match x with
  | Some t => t ++ s
  | None => "null" ++ s
  end.

(** [chunks.join('')] *)
Definition join (chunks : list string) : string := String.concat "" chunks.

(** Scalars, and flat objects in insertion order. *)
Inductive Value :=
| Null
| Bool (b : bool)
| Num (n : Z)
| Str (s : string).

Definition Object := list (string * Value).

Fixpoint get (o : Object) (k : string) : option Value :=
  match o with
  | [] => None
  | (k', v) :: o' => if String.eqb k' k then Some v else get o' k
  end.

(** [o[k] = v]: an existing key keeps its place, a new one goes last. *)
Fixpoint set (o : Object) (k : string) (v : Value) : Object :=
  match o with
  | [] => [(k, v)]
  | (k', v') :: o' =>
      if String.eqb k' k then (k, v) :: o' else (k', v') :: set o' k v
  end.

End Js.

(** ** The data model *)

(** The caller's object, as [request] receives it: any field may be
    missing.  A missing and a [null] [url] or [body] are treated alike. *)
Module CallerOptions.
Record t := make {
  url : option string;
  method : option string;
  body : option Js.Object;
  contentType : option string;
  followRedirect : option bool;
  maxRedirects : option Z;
  timeout : option Z;
  headers : option Js.Object }.
End CallerOptions.

(** The same object once the defaults are set: [requestOptions] in the
    body of [request].  It is shared by all the attempts of a call. *)
Module RequestOptions.
Record t := make {
  url : option string;
  method : string;
  body : option Js.Object;
  contentType : string;
  followRedirect : bool;
  maxRedirects : Z;
  timeout : Z;
  headers : Js.Object }.

Definition with_url (u : option string) (ro : t) : t :=
  make u (method ro) (body ro) (contentType ro) (followRedirect ro)
       (maxRedirects ro) (timeout ro) (headers ro).

Definition with_maxRedirects (n : Z) (ro : t) : t :=
  make (url ro) (method ro) (body ro) (contentType ro) (followRedirect ro)
       n (timeout ro) (headers ro).

Definition with_headers (h : Js.Object) (ro : t) : t :=
  make (url ro) (method ro) (body ro) (contentType ro) (followRedirect ro)
       (maxRedirects ro) (timeout ro) h.
End RequestOptions.

(** What [url.parse] returns, for the fields the code reads. *)
Module Url.
Record t := make {
  protocol : option string;
  hostname : option string;
  port : option string;
  path : option string }.
End Url.

(** [options.port]: a number when defaulted, the parser's text
    otherwise. *)
Inductive Port :=
| PortNumber (n : Z)
| PortText (s : string)
| PortNull.

(** [options], the argument of [lib.request]. *)
Module Options.
Record t := make {
  hostname : option string;
  path : option string;
  method : string;
  port : Port;
  headers : Js.Object }.
End Options.

Inductive Lib := http | https.

(** One network attempt: the module selected, its options, and the payload
    written before the request stream is closed. *)
Module Call.
Record t := make {
  lib : Lib;
  options : Options.t;
  postData : option string }.
End Call.

(** [response.statusCode] and [response.headers] (names in lower case). *)
Module Response.
Record t := make {
  statusCode : Z;
  headers : list (string * string) }.

Fixpoint header (hs : list (string * string)) (k : string) : option string :=
  match hs with
  | [] => None
  | (k', v) :: hs' => if String.eqb k' k then Some v else header hs' k
  end.

(** [response.headers.location] *)
Definition location (r : t) : option string := header (headers r) "location".

Definition headersObject (r : t) : Js.Object :=
  List.map (fun kv => (fst kv, Js.Str (snd kv))) (headers r).
End Response.

(** [requestResult] *)
Module RequestResult.
Record t := make {
  status : Z;
  headers : string;
  body : string }.
End RequestResult.

(** What a promise is rejected with. *)
Inductive Reason :=
| Text (s : string)
| ErrorInfo (code msg : option string)
| Thrown (e : string).

(** The promise that [request] returns.  [Adopted]: resolved with the
    promise of the follow-up call, whose outcome it takes. *)
Inductive Promise :=
| Pending
| Fulfilled (v : RequestResult.t)
| Rejected (e : Reason)
| Adopted.

Definition resolve (p : Promise) (v : RequestResult.t) : Promise :=
  match p with Pending => Fulfilled v | _ => p end.

Definition reject (p : Promise) (e : Reason) : Promise :=
  match p with Pending => Rejected e | _ => p end.

Definition resolve_with_promise (p : Promise) : Promise :=
  match p with Pending => Adopted | _ => p end.

(** ** The platform *)

Class Platform := {
  toUpperCase : string -> string;
  url_parse : string -> Url.t;
  querystring_stringify : Js.Object -> string;
  JSON_stringify : Js.Object -> string }.

(** What the request object and its response emit during one attempt,
    and [idle ms]: the socket stays without activity for [ms]
    milliseconds. *)
Inductive Event :=
| socket
| idle (ms : Z)
| error (code syscall : option string)
| response (r : Response.t)
| data (chunk : string)
| end_.

(** [lib.request] either throws or returns a request that emits events. *)
Inductive Transport :=
| Throws (e : string)
| Emits (events : list Event).

(** The transport: attempt number and call to what happens. *)
Definition Network := nat -> Call.t -> Transport.

(** The state of one attempt: the promise, the shared [requestOptions],
    and what the closures of the attempt hold. *)
Module Attempt.
Record t := make {
  started : RequestOptions.t;
  call : option Call.t;
  promise : Promise;
  requestOptions : RequestOptions.t;
  aborted : bool;
  armed : option Z;
  responded : bool;
  collecting : option Response.t;
  body : list string;
  followup : bool }.

Definition with_promise (p : Promise) (a : t) : t :=
  make (started a) (call a) p (requestOptions a) (aborted a) (armed a)
       (responded a) (collecting a) (body a) (followup a).

Definition with_requestOptions (ro : RequestOptions.t) (a : t) : t :=
  make (started a) (call a) (promise a) ro (aborted a) (armed a)
       (responded a) (collecting a) (body a) (followup a).

Definition abort (a : t) : t :=
  make (started a) (call a) (promise a) (requestOptions a) true (armed a)
       (responded a) (collecting a) (body a) (followup a).

(** [socket.setTimeout(timeout)] and the handler of the timeout. *)
Definition arm (timeout : Z) (a : t) : t :=
  make (started a) (call a) (promise a) (requestOptions a) (aborted a)
       (Some timeout) (responded a) (collecting a) (body a) (followup a).

Definition respond (a : t) : t :=
  make (started a) (call a) (promise a) (requestOptions a) (aborted a)
       (armed a) true (collecting a) (body a) (followup a).

Definition collect (r : Response.t) (a : t) : t :=
  make (started a) (call a) (promise a) (requestOptions a) (aborted a)
       (armed a) (responded a) (Some r) [] (followup a).

Definition push (chunk : string) (a : t) : t :=
  make (started a) (call a) (promise a) (requestOptions a) (aborted a)
       (armed a) (responded a) (collecting a) (body a ++ [chunk]) (followup a).

Definition follow (a : t) : t :=
  make (started a) (call a) (promise a) (requestOptions a) (aborted a)
       (armed a) (responded a) (collecting a) (body a) true.
End Attempt.

(** A call of [request]: how its promise ends, and its attempts in order. *)
Module Run.
Record t := make {
  outcome : Promise;
  attempts : list Attempt.t }.
End Run.

(** ** The function [request] *)

Section Request.

Context {platform : Platform}.

(** Lines 53-60: the defaults. *)
Definition defaults (co : CallerOptions.t) : RequestOptions.t :=
  RequestOptions.make
    (CallerOptions.url co)
    (match CallerOptions.method co with
     | None => "GET"
     | Some m => toUpperCase m
     end)
    (CallerOptions.body co)
    (match CallerOptions.contentType co with
     | None => "FORM"
     | Some c => toUpperCase c
     end)
    (match CallerOptions.followRedirect co with
     | None => true
     | Some b => b
     end)
    (match CallerOptions.maxRedirects co with
     | None => 10
     | Some n => n
     end)
    (match CallerOptions.timeout co with
     | None => 10000
     | Some n => n
     end)
    (match CallerOptions.headers co with
     | None => []
     | Some h => h
     end).

(** The object as the redirect branch hands it to [this.request]. *)
Definition passed (ro : RequestOptions.t) : CallerOptions.t :=
  CallerOptions.make
    (RequestOptions.url ro) (Some (RequestOptions.method ro))
    (RequestOptions.body ro) (Some (RequestOptions.contentType ro))
    (Some (RequestOptions.followRedirect ro))
    (Some (RequestOptions.maxRedirects ro))
    (Some (RequestOptions.timeout ro)) (Some (RequestOptions.headers ro)).

(** [{code: 'ERR', msg: m}] *)
Definition infoObj (m : string) : Js.Object :=
  [("code", Js.Str "ERR"); ("msg", Js.Str m)].

(** [u.search(/^http[s]?\:\/\//)]: the index of the match, or -1. *)
Definition search_scheme (u : string) : Z :=
  if String.prefix "http://" u || String.prefix "https://" u then 0 else -1.

(** Line 74-76. *)
Definition backfill (u : string) : string :=
  if search_scheme u =? -1 then "http://" ++ u else u.

(** Lines 89-97. *)
Definition resolve_port (requestObject : Url.t) : Port :=
  match Url.port requestObject, Url.protocol requestObject with
  | None, None => PortNumber 80
  | None, Some p =>
      if String.eqb p "https:" then PortNumber 443
      else if String.eqb p "http:" then PortNumber 80
      else PortNull
  | Some s, _ => PortText s
  end.

Definition content_headers (h : Js.Object) (type : string) (postData : string)
  : Js.Object :=
  Js.set (Js.set h "Content-Type" (Js.Str type))
         "Content-Length" (Js.Num (Z.of_nat (Js.length postData))).

(** Lines 102-127: [options.path], [options.headers] and [postData]. *)
Definition encode_body (ro : RequestOptions.t) (options : Options.t)
  : Options.t * option string :=
  match RequestOptions.body ro with
  | None => (options, None)
  | Some b =>
      if String.eqb (RequestOptions.method ro) "GET" then
        (Options.make (Options.hostname options)
           (Some (Js.add (Options.path options)
                         ("?" ++ querystring_stringify b)))
           (Options.method options) (Options.port options)
           (Options.headers options),
         None)
      else
        let postData := JSON_stringify b in
        let type :=
          if String.eqb (RequestOptions.contentType ro) "JSON"
          then "application/json"
          else if String.eqb (RequestOptions.contentType ro) "FORM"
          then "application/x-www-form-urlencoded"
          else "application/x-www-form-urlencoded" in
        (Options.make (Options.hostname options) (Options.path options)
           (Options.method options) (Options.port options)
           (content_headers (Options.headers options) type postData),
         Some postData)
  end.

(** Lines 74-130 for a [url] that is a string: the call, and
    [requestOptions] as these lines leave it.  [options.headers] is the
    very object [requestOptions.headers], so the content headers show in
    both. *)
Definition resolve_call (u : string) (ro : RequestOptions.t)
  : Call.t * RequestOptions.t :=
  let u' := backfill u in
  let requestObject := url_parse u' in
  let options :=
    Options.make (Url.hostname requestObject) (Url.path requestObject)
                 (RequestOptions.method ro) (resolve_port requestObject)
                 (RequestOptions.headers ro) in
  let (options', postData) := encode_body ro options in
  let lib := if Js.startsWith u' "https" then https else http in
  (Call.make lib options' postData,
   RequestOptions.with_headers (Options.headers options')
     (RequestOptions.with_url (Some u') ro)).

(** *** The handlers of an attempt *)

(** The condition of line 139; when it holds, the location. *)
Definition redirection (r : Response.t) : option string :=
  if (300 <=? Response.statusCode r) && (Response.statusCode r <? 400)
     && Js.truthy (Response.location r)
  then Response.location r
  else None.

(** [url.parse(requestOptions.url).hostname]; a request in flight always
    has a string for url. *)
Definition current_hostname (ro : RequestOptions.t) : option string :=
  match RequestOptions.url ro with
  | Some u => Url.hostname (url_parse u)
  | None => None
  end.

(** Lines 141-153: the new url, the decrement, the abort and the chained
    call, the same in both branches. *)
Definition redirect (location : string) (st : Attempt.t) : Attempt.t :=
  let ro := Attempt.requestOptions st in
  let target :=
    if Js.truthy (Url.hostname (url_parse location)) then location
    else Js.add (current_hostname ro) location in
  let ro' :=
    RequestOptions.with_maxRedirects
      (Js.decrement (RequestOptions.maxRedirects ro))
      (RequestOptions.with_url (Some target) ro) in
  let st := Attempt.abort (Attempt.with_requestOptions ro' st) in
  Attempt.with_promise (resolve_with_promise (Attempt.promise st))
    (Attempt.follow st).

Definition reject_status (kind : string) (status : Z) (st : Attempt.t) : Attempt.t :=
  Attempt.with_promise
    (reject (Attempt.promise st)
            (ErrorInfo (Some "ERR") (Some (kind ++ Js.ofNumber status))))
    st.

(** Lines 133-190: the callback of [lib.request].  Only a followed
    redirect returns before the body handlers are attached. *)
Definition on_response (r : Response.t) (st : Attempt.t) : Attempt.t :=
  let ro := Attempt.requestOptions st in
  let status := Response.statusCode r in
  match redirection r with
  | Some location =>
      if RequestOptions.followRedirect ro
         && (0 <? RequestOptions.maxRedirects ro)
      then redirect location st
      else Attempt.collect r st
  | None =>
      if (400 <=? status) && (status <? 500)
      then Attempt.collect r (reject_status "CLIENT ERROR: " status st)
      else if 500 <=? status
      then Attempt.collect r (reject_status "SERVER ERROR: " status st)
      else Attempt.collect r st
  end.

(** Lines 173-175. *)
Definition on_data (chunk : string) (st : Attempt.t) : Attempt.t :=
  match Attempt.collecting st with
  | Some _ => Attempt.push chunk st
  | None => st
  end.

(** Lines 182-189. *)
Definition on_end (st : Attempt.t) : Attempt.t :=
  match Attempt.collecting st with
  | Some r =>
      Attempt.with_promise
        (resolve (Attempt.promise st)
           (RequestResult.make (Response.statusCode r)
              (JSON_stringify (Response.headersObject r))
              (Js.join (Attempt.body st))))
        st
  | None => st
  end.

(** Lines 192-198. *)
Definition on_error (code syscall : option string) (st : Attempt.t)
  : Attempt.t :=
  Attempt.with_promise (reject (Attempt.promise st) (ErrorInfo code syscall)) st.

(** Lines 202-209: the abort, then the rejection with the JSON text. *)
Definition on_timeout (st : Attempt.t) : Attempt.t :=
  let st := Attempt.abort st in
  Attempt.with_promise
    (reject (Attempt.promise st) (Text (JSON_stringify (infoObj "timeout"))))
    st.

(** The socket emits its timeout when it was given a timeout that is
    positive and has been idle that long; a timeout of 0 turns the timer
    off, and a negative one the socket refuses. *)
Definition fires (armed : option Z) (ms : Z) : bool :=
  match armed with
  | Some timeout => (0 <? timeout) && (timeout <=? ms)
  | None => false
  end.

(** One event.  An aborted request emits nothing more; the response
    callback runs once; lines 200-201 give the socket the configured
    timeout, [requestOptions.timeout], and the handler of its timeout. *)
Definition deliver (st : Attempt.t) (e : Event) : Attempt.t :=
  if Attempt.aborted st then st
  else
    match e with
    | socket =>
        Attempt.arm (RequestOptions.timeout (Attempt.requestOptions st)) st
    | idle ms => if fires (Attempt.armed st) ms then on_timeout st else st
    | error code syscall => on_error code syscall st
    | response r =>
        if Attempt.responded st then st
        else on_response r (Attempt.respond st)
    | data chunk => on_data chunk st
    | end_ => on_end st
    end.

Definition run (events : list Event) (st : Attempt.t) : Attempt.t :=
  fold_left deliver events st.

Definition start (ro : RequestOptions.t) (c : option Call.t) (p : Promise)
  (ro' : RequestOptions.t) : Attempt.t :=
  Attempt.make ro c p ro' false None false None [] false.

(** The first state of an attempt whose url is the string [u]. *)
Definition begin (u : string) (ro : RequestOptions.t) : Attempt.t :=
  start ro (Some (fst (resolve_call u ro))) Pending (snd (resolve_call u ro)).

(** The attempt once its socket is known. *)
Definition connected (u : string) (ro : RequestOptions.t) : Attempt.t :=
  deliver (begin u ro) socket.

(** Lines 63-217: the executor of the promise, then the events of the
    attempt.  The test of line 65 rejects and goes on: with a [null] url,
    line 74 throws, which ends the executor on a promise that is settled
    already. *)
Definition executor (net : Network) (k : nat) (ro : RequestOptions.t)
  : Attempt.t :=
  let p :=
    match RequestOptions.url ro with
    | None => reject Pending (Text (JSON_stringify (infoObj "URL MISSING")))
    | Some _ => Pending
    end in
  match RequestOptions.url ro with
  | None => start ro None (reject p (Thrown "TypeError")) ro
  | Some u =>
      let (c, ro') := resolve_call u ro in
      match net k c with
      | Throws e => start ro (Some c) (reject p (Thrown e)) ro'
      | Emits events => run events (start ro (Some c) p ro')
      end
  end.

(** The promise of an attempt that chained a follow-up takes the outcome
    of the follow-up. *)
Definition adopt (p inner : Promise) : Promise :=
  match p with
  | Adopted => inner
  | _ => p
  end.

(** [request], attempt [k] of a call.  The function is called as a method
    of the module, as in the usage that the source documents, so that
    [this.request] is [request] itself.  The fuel bounds the chain of
    follow-up calls; [None] is a chain that outlives it. *)
Fixpoint request (fuel : nat) (net : Network) (k : nat)
  (requestOptions : CallerOptions.t) : option Run.t :=
  match fuel with
  | O => None
  | S fuel' =>
      let st := executor net k (defaults requestOptions) in
      if Attempt.followup st then
        match request fuel' net (S k) (passed (Attempt.requestOptions st)) with
        | Some inner =>
            Some (Run.make (adopt (Attempt.promise st) (Run.outcome inner))
                           (st :: Run.attempts inner))
        | None => None
        end
      else Some (Run.make (Attempt.promise st) [st])
  end.

End Request.

(** The calls that reached the transport, in order. *)
Fixpoint calls (attempts : list Attempt.t) : list Call.t :=
  match attempts with
  | [] => []
  | a :: rest =>
      match Attempt.call a with
      | Some c => c :: calls rest
      | None => calls rest
      end
  end.

(** [requestOptions.maxRedirects] at the start of each attempt. *)
Definition counters (attempts : list Attempt.t) : list Z :=
  List.map (fun a => RequestOptions.maxRedirects (Attempt.started a)) attempts.

(** [requestOptions.maxRedirects] as the last attempt leaves it: the value
    the caller finds in its object afterwards. *)
Fixpoint final_counter (attempts : list Attempt.t) : option Z :=
  match attempts with
  | [] => None
  | [a] => Some (RequestOptions.maxRedirects (Attempt.requestOptions a))
  | _ :: rest => final_counter rest
  end.

(** [n; n-1; ...; 0] *)
Fixpoint countdown (n : nat) : list Z :=
  Z.of_nat n ::
  match n with
  | O => []
  | S m => countdown m
  end.

(** Each value is the one before, less one. *)
Fixpoint descending (l : list Z) : Prop :=
  match l with
  | a :: (b :: _) as rest => b = a - 1 /\ descending rest
  | _ => True
  end.

(** What one attempt does to the counter: it decrements it when it
    chains a follow-up call, which needs a positive counter, and leaves
    it alone otherwise. *)
Definition counter_step (a : Attempt.t) : Prop :=
  let before := RequestOptions.maxRedirects (Attempt.started a) in
  let after := RequestOptions.maxRedirects (Attempt.requestOptions a) in
  if Attempt.followup a then 0 < before /\ after = Js.decrement before
  else after = before.

(** ** A reference platform

    The capabilities as Node.js provides them, for ASCII texts without
    white space, backslashes, brackets or other characters that cannot
    stand in a host name or that [url.parse] escapes, and for flat objects
    of scalars.  The witnesses and the examples run on it; the theorems
    hold for every platform. *)

Module Node.

Definition between (lo hi : nat) (c : ascii) : bool :=
  ((lo <=? nat_of_ascii c) && (nat_of_ascii c <=? hi))%nat.

Definition digit (c : ascii) : bool := between 48 57 c.

Definition alnum (c : ascii) : bool :=
  digit c || between 65 90 c || between 97 122 c.

Fixpoint any (c : ascii) (set : string) : bool :=
  match set with
  | EmptyString => false
  | String d set' => Ascii.eqb c d || any c set'
  end.

Fixpoint all (p : ascii -> bool) (s : string) : bool :=
  match s with
  | EmptyString => true
  | String c s' => p c && all p s'
  end.

(** The text up to the first character of [set], and the text from it. *)
Fixpoint break (set : string) (s : string) : string * string :=
  match s with
  | EmptyString => (EmptyString, EmptyString)
  | String c s' =>
      if any c set then (EmptyString, s)
      else let (a, b) := break set s' in (String c a, b)
  end.

(** The pattern [/^[a-z0-9.+-]+:/i]: its letters, and what follows the
    colon. *)
Fixpoint scheme (s : string) : option (string * string) :=
  match s with
  | EmptyString => None
  | String c s' =>
      if Ascii.eqb c ":" then Some (EmptyString, s')
      else if alnum c || any c ".+-" then
        match scheme s' with
        | Some (p, rest) => Some (String c p, rest)
        | None => None
        end
      else None
  end.

Definition protocol (s : string) : option (string * string) :=
  match scheme s with
  | Some (String c p, rest) => Some (Js.asciiLowerCase (String c p) ++ ":", rest)
  | _ => None
  end.

Definition slashed (p : option string) : bool :=
  match p with
  | Some p =>
      existsb (String.eqb p)
        ["http:"; "https:"; "ftp:"; "gopher:"; "file:"; "ws:"; "wss:"]
  | None => false
  end.

Definition hostless (p : option string) : bool :=
  match p with
  | Some p => String.eqb p "javascript:"
  | None => false
  end.

Fixpoint after_last_at (s : string) : option string :=
  match s with
  | EmptyString => None
  | String c s' =>
      match after_last_at s' with
      | Some t => Some t
      | None => if Ascii.eqb c "@" then Some s' else None
      end
  end.

(** The pattern [/:[0-9]*$/]: the host name before it, the digits after
    the colon. *)
Fixpoint split_port (host : string) : string * option string :=
  match host with
  | EmptyString => (EmptyString, None)
  | String c host' =>
      if Ascii.eqb c ":" && all digit host' then (EmptyString, Some host')
      else let (h, p) := split_port host' in (String c h, p)
  end.

Definition nonempty (s : string) : option string :=
  match s with
  | EmptyString => None
  | _ => Some s
  end.

Definition drop2 (s : string) : string :=
  match s with
  | String _ (String _ s') => s'
  | _ => s
  end.

(** The pattern [/^\/\/[^@/]+@[^@/]+/]: a text that begins with slashes
    and names a user and a host. *)
Definition user_at_host (rest : string) : bool :=
  String.prefix "//" rest
  && match break "@/" (drop2 rest) with
     | (String _ _, String "@" (String c _)) => negb (any c "@/")
     | _ => false
     end.

Definition present (p : option string) : bool :=
  match p with
  | Some _ => true
  | None => false
  end.

(** [url.parse(s)] *)
Definition parse (s : string) : Url.t :=
  let (proto, rest) :=
    match protocol s with
    | Some (p, rest) => (Some p, rest)
    | None => (None, s)
    end in
  let slashes :=
    (present proto || user_at_host rest) && String.prefix "//" rest in
  if negb (hostless proto)
     && (slashes || present proto && negb (slashed proto))
  then
    let (authority, tail) := break "/?#" (if slashes then drop2 rest else rest) in
    let host :=
      match after_last_at authority with
      | Some h => h
      | None => authority
      end in
    let (name, digits) := split_port host in
    let hostname := Js.asciiLowerCase name in
    let path := fst (break "#" tail) in
    Url.make proto (Some hostname)
      (match digits with Some d => nonempty d | None => None end)
      (match path with
       | EmptyString =>
           if slashed proto && Js.truthy (Some hostname) then Some "/" else None
       | String "?" _ =>
           if slashed proto && Js.truthy (Some hostname)
           then Some ("/" ++ path) else Some path
       | _ => Some path
       end)
  else
    Url.make proto None None (nonempty (fst (break "#" rest))).

Definition hexdigit (upper : bool) (n : nat) : ascii :=
  if (n <? 10)%nat then ascii_of_nat (48 + n)
  else ascii_of_nat ((if upper then 55 else 87) + n).

Definition hex (upper : bool) (c : ascii) : string :=
  String (hexdigit upper (nat_of_ascii c / 16))
    (String (hexdigit upper (nat_of_ascii c mod 16)) EmptyString).

(** [querystring.escape] *)
Fixpoint escape (s : string) : string :=
  match s with
  | EmptyString => EmptyString
  | String c s' =>
      if alnum c || any c "-_.!~*'()" then String c (escape s')
      else "%" ++ hex true c ++ escape s'
  end.

Definition primitive (v : Js.Value) : string :=
  match v with
  | Js.Null => ""
  | Js.Bool true => "true"
  | Js.Bool false => "false"
  | Js.Num n => Js.ofNumber n
  | Js.Str s => s
  end.

(** [querystring.stringify(o)] *)
Definition stringify (o : Js.Object) : string :=
  String.concat "&"
    (List.map (fun kv => escape (fst kv) ++ "=" ++ escape (primitive (snd kv))) o).

(** The text of a JSON string, without its quotes. *)
Fixpoint quoted (s : string) : string :=
  match s with
  | EmptyString => EmptyString
  | String c s' =>
      let n := nat_of_ascii c in
      (if (n =? 34)%nat then "\" ++ Js.dquote
       else if (n =? 92)%nat then "\\"
       else if (n =? 8)%nat then "\b"
       else if (n =? 9)%nat then "\t"
       else if (n =? 10)%nat then "\n"
       else if (n =? 12)%nat then "\f"
       else if (n =? 13)%nat then "\r"
       else if (n <? 32)%nat then "\u00" ++ hex false c
       else String c EmptyString) ++ quoted s'
  end.

Definition quote (s : string) : string := Js.dquote ++ quoted s ++ Js.dquote.

Definition value (v : Js.Value) : string :=
  match v with
  | Js.Null => "null"
  | Js.Bool true => "true"
  | Js.Bool false => "false"
  | Js.Num n => Js.ofNumber n
  | Js.Str s => quote s
  end.

(** [JSON.stringify(o)] *)
Definition json (o : Js.Object) : string :=
  "{" ++ String.concat "," (List.map (fun kv => quote (fst kv) ++ ":" ++ value (snd kv)) o)
      ++ "}".

End Node.

#[export] Instance node : Platform := {
  toUpperCase := Js.asciiUpperCase;
  url_parse := Node.parse;
  querystring_stringify := Node.stringify;
  JSON_stringify := Node.json }.

(** ** Scenarios

    Caller objects and transports to run the model on. *)

Module Scenario.

(** A caller object with a url and nothing else. *)
Definition get (u : string) : CallerOptions.t :=
  CallerOptions.make (Some u) None None None None None None None.

(** A caller object without url. *)
Definition no_url : CallerOptions.t :=
  CallerOptions.make None None None None None None None None.

(** A caller object that posts [b] with the content type [type]. *)
Definition post (u type : string) (b : Js.Object) : CallerOptions.t :=
  CallerOptions.make (Some u) (Some "post") (Some b) (Some type)
    None None None None.

(** A body whose text is not ASCII: [{msg: "\u00e9"}], the letter e
    with an acute accent, two octets in UTF-8. *)
Definition accented : Js.Object :=
  [("msg", Js.Str (String "195" (String "169" EmptyString)))].

(** A caller object that allows [n] redirects. *)
Definition bounded (u : string) (n : Z) : CallerOptions.t :=
  CallerOptions.make (Some u) None None None (Some true) (Some n) None None.

(** A response with the given status and headers, then its body. *)
Definition answer (status : Z) (hs : list (string * string))
  (chunks : list string) : Transport :=
  Emits (socket :: response (Response.make status hs)
           :: List.map data chunks ++ [end_]).

(** The same answer to every attempt. *)
Definition always (t : Transport) : Network := fun _ _ => t.

(** [n] redirects to [location], then [t]. *)
Definition hops (n : nat) (location : string) (t : Transport) : Network :=
  fun k _ =>
    if (k <? n)%nat then answer 302 [("location", location)] [] else t.

(** A connection on which nothing arrives for ten seconds. *)
Definition stalled : Transport := Emits [socket; idle 10000].

(** The headers of a 404 arrive, then nothing for ten seconds. *)
Definition stalled_body : Transport :=
  Emits [socket; response (Response.make 404 []); idle 10000].

End Scenario.

(** ** More scenarios *)

(** The event is the response. *)
Definition is_response (e : Event) : bool :=
  match e with
  | response _ => true
  | _ => false
  end.

(** An attempt is sound when a fulfilled promise holds a status below 400
    and a response with a status of 400 or more, once its body is being
    collected, has settled the promise. *)
Definition sound (st : Attempt.t) : Prop :=
  (forall v, Attempt.promise st = Fulfilled v -> RequestResult.status v < 400)
  /\ (forall r, Attempt.collecting st = Some r ->
        400 <= Response.statusCode r -> Attempt.promise st <> Pending).

Module Sample.

(** A connection that is refused. *)
Definition refused : Transport :=
  Emits [socket; error (Some "ECONNREFUSED") (Some "connect")].

(** A caller object that sends [b] with the method [m] and its own
    headers [h]. *)
Definition sending (u m : string) (b : option Js.Object) (h : Js.Object)
  : CallerOptions.t :=
  CallerOptions.make (Some u) (Some m) b None None None None (Some h).

(** A caller object with a timeout of [t] milliseconds. *)
Definition patient (u : string) (t : Z) : CallerOptions.t :=
  CallerOptions.make (Some u) None None None None None (Some t) None.

(** A server that redirects every attempt. *)
Definition looping : Network :=
  Scenario.always (Scenario.answer 302 [("location", "/again")] []).

(** A caller object that does not follow redirects. *)
Definition unfollowing (u : string) : CallerOptions.t :=
  CallerOptions.make (Some u) None None None (Some false) None None None.

End Sample.

(** * Properties *)

Example length_ascii : Js.length "timeout" = 7%nat.
Proof. reflexivity. Qed.

Example ofNumber_404 : Js.ofNumber 404 = "404".
Proof. reflexivity. Qed.

Example asciiUpperCase_post : Js.asciiUpperCase "post" = "POST".
Proof. reflexivity. Qed.

Example parse_absolute :
  Node.parse "https://example.com:8443/a?b=1#c"
  = Url.make (Some "https:") (Some "example.com") (Some "8443") (Some "/a?b=1").
Proof. reflexivity. Qed.

Example parse_relative :
  Node.parse "/login" = Url.make None None None (Some "/login").
Proof. reflexivity. Qed.

Example stringify_form :
  Node.stringify [("msg", Js.Str "Post test"); ("number", Js.Num 1968)]
  = "msg=Post%20test&number=1968".
Proof. reflexivity. Qed.

Example json_info :
  Node.json [("code", Js.Str "ERR"); ("msg", Js.Str "timeout")]
  = "{" ++ Js.dquote ++ "code" ++ Js.dquote ++ ":" ++ Js.dquote ++ "ERR"
        ++ Js.dquote ++ "," ++ Js.dquote ++ "msg" ++ Js.dquote ++ ":"
        ++ Js.dquote ++ "timeout" ++ Js.dquote ++ "}".
Proof. reflexivity. Qed.

(** ** Numbers, objects and strings *)

#[local] Arguments Js.decrement : simpl never.

(** Up to 2^53 the decrement is exact. *)
Lemma decrement_exact (n : Z) :
  0 < n <= Js.exact -> Js.decrement n = n - 1.
Proof.
  intros H. unfold Js.decrement, Js.round.
  destruct (Z.abs (n - 1) <=? Js.exact) eqn:E; [reflexivity|].
  apply Z.leb_gt in E. lia.
Qed.

Example decrement_beyond_exact :
  List.map Js.decrement [3; 9007199254740992; 9007199254740994; 9007199254740996]
  = [2; 9007199254740991; 9007199254740992; 9007199254740996].
Proof. reflexivity. Qed.

Lemma get_set_same (o : Js.Object) (k : string) (v : Js.Value) :
  Js.get (Js.set o k v) k = Some v.
Proof.
  induction o as [|[k' v'] o IH]; simpl.
  - now rewrite String.eqb_refl.
  - destruct (String.eqb k' k) eqn:E; simpl.
    + now rewrite String.eqb_refl.
    + now rewrite E.
Qed.

Lemma get_set_other (o : Js.Object) (k k' : string) (v : Js.Value) :
  k <> k' -> Js.get (Js.set o k v) k' = Js.get o k'.
Proof.
  intros Hne. induction o as [|[k0 v0] o IH]; simpl.
  - destruct (String.eqb k k') eqn:E; [|reflexivity].
    apply String.eqb_eq in E. contradiction.
  - destruct (String.eqb k0 k) eqn:E; simpl.
    + apply String.eqb_eq in E. subst k0.
      destruct (String.eqb k k') eqn:E'; [|reflexivity].
      apply String.eqb_eq in E'. contradiction.
    + now rewrite IH.
Qed.

Lemma prefix_split (p s : string) :
  String.prefix p s = true -> exists t, s = p ++ t.
Proof.
  revert s. induction p as [|c p IH]; intros s H.
  - now exists s.
  - destruct s as [|d s]; [discriminate H|].
    simpl in H. destruct (Ascii.ascii_dec c d) as [e|n]; [subst d|discriminate H].
    destruct (IH _ H) as [t ->]. now exists t.
Qed.

(** A url without scheme gets [http://] in front; one with a scheme is
    kept. *)
Lemma backfill_without_scheme (u : string) :
  String.prefix "http://" u = false -> String.prefix "https://" u = false ->
  backfill u = "http://" ++ u.
Proof.
  intros H1 H2. unfold backfill, search_scheme. now rewrite H1, H2.
Qed.

Lemma backfill_with_scheme (u : string) :
  String.prefix "http://" u || String.prefix "https://" u = true ->
  backfill u = u.
Proof.
  intros H. unfold backfill, search_scheme. now rewrite H.
Qed.

Lemma prefix_app (p t : string) : String.prefix p (p ++ t) = true.
Proof.
  induction p as [|c p IH]; simpl.
  - now destruct t.
  - destruct (Ascii.ascii_dec c c) as [_|n]; [exact IH|now elim n].
Qed.

(** Normalization is idempotent. *)
Lemma backfill_idempotent (u : string) : backfill (backfill u) = backfill u.
Proof.
  destruct (String.prefix "http://" u || String.prefix "https://" u) eqn:E.
  - rewrite (backfill_with_scheme u E). now apply backfill_with_scheme.
  - apply orb_false_elim in E. destruct E as [E1 E2].
    rewrite (backfill_without_scheme u E1 E2).
    apply backfill_with_scheme. now rewrite prefix_app.
Qed.

(** ** The attempts *)

Section Attempts.

Context {platform : Platform}.

Ltac handlers :=
  unfold deliver, on_response, on_data, on_end, on_error, on_timeout,
    redirect, reject_status in *.

Ltac split_ifs :=
  repeat match goal with
    | |- context [if ?b then _ else _] => destruct b eqn:?
    | |- context [match ?x with _ => _ end] => destruct x eqn:?
    end.

Lemma run_app (a b : list Event) (st : Attempt.t) :
  run (a ++ b) st = run b (run a st).
Proof. apply fold_left_app. Qed.

(** An aborted request emits nothing more. *)
Lemma run_aborted (events : list Event) (st : Attempt.t) :
  Attempt.aborted st = true -> run events st = st.
Proof.
  intros H. induction events as [|e events IH]; [reflexivity|].
  change (run events (deliver st e) = st).
  replace (deliver st e) with st; [exact IH|].
  unfold deliver. now rewrite H.
Qed.

Lemma deliver_keeps (st : Attempt.t) (e : Event) :
  Attempt.started (deliver st e) = Attempt.started st
  /\ Attempt.call (deliver st e) = Attempt.call st.
Proof. handlers. split_ifs; simpl; auto. Qed.

Lemma run_keeps (events : list Event) (st : Attempt.t) :
  Attempt.started (run events st) = Attempt.started st
  /\ Attempt.call (run events st) = Attempt.call st.
Proof.
  revert st. induction events as [|e events IH]; intros st; [now split|].
  simpl. destruct (IH (deliver st e)) as [-> ->]. apply deliver_keeps.
Qed.

(** A promise settles once. *)
Lemma settled_resolve (p : Promise) (v : RequestResult.t) :
  p <> Pending -> resolve p v = p.
Proof. now destruct p. Qed.

Lemma settled_reject (p : Promise) (e : Reason) :
  p <> Pending -> reject p e = p.
Proof. now destruct p. Qed.

Lemma settled_chain (p : Promise) :
  p <> Pending -> resolve_with_promise p = p.
Proof. now destruct p. Qed.

Lemma deliver_settled (st : Attempt.t) (e : Event) :
  Attempt.promise st <> Pending ->
  Attempt.promise (deliver st e) = Attempt.promise st.
Proof.
  intros H. handlers.
  split_ifs; simpl; auto using settled_resolve, settled_reject, settled_chain.
Qed.

Lemma run_settled (events : list Event) (st : Attempt.t) :
  Attempt.promise st <> Pending ->
  Attempt.promise (run events st) = Attempt.promise st.
Proof.
  revert st. induction events as [|e events IH]; intros st H; [reflexivity|].
  simpl. fold (run events (deliver st e)).
  rewrite IH; rewrite deliver_settled; auto.
Qed.

(** The response callback runs once: after it, no follow-up starts and
    the configuration stays. *)
Lemma deliver_responded (st : Attempt.t) (e : Event) :
  Attempt.responded st = true ->
  Attempt.responded (deliver st e) = true
  /\ Attempt.followup (deliver st e) = Attempt.followup st
  /\ Attempt.requestOptions (deliver st e) = Attempt.requestOptions st.
Proof.
  intros H. handlers. rewrite H. split_ifs; simpl; auto.
Qed.

Lemma run_responded (events : list Event) (st : Attempt.t) :
  Attempt.responded st = true ->
  Attempt.followup (run events st) = Attempt.followup st
  /\ Attempt.requestOptions (run events st) = Attempt.requestOptions st.
Proof.
  revert st. induction events as [|e events IH]; intros st H; [now split|].
  simpl. fold (run events (deliver st e)).
  destruct (deliver_responded st e H) as (H1 & H2 & H3).
  destruct (IH _ H1) as [-> ->]. now split.
Qed.

(** Chunks are kept in the order of arrival. *)
Lemma run_data (chunks : list string) (st : Attempt.t) (r : Response.t) :
  Attempt.aborted st = false -> Attempt.collecting st = Some r ->
  run (List.map data chunks) st
  = Attempt.make (Attempt.started st) (Attempt.call st) (Attempt.promise st)
      (Attempt.requestOptions st) false (Attempt.armed st)
      (Attempt.responded st) (Some r) (Attempt.body st ++ chunks)
      (Attempt.followup st).
Proof.
  revert st. induction chunks as [|c chunks IH]; intros st Ha Hc.
  - simpl. rewrite app_nil_r. destruct st; simpl in *. now subst.
  - simpl. fold (run (List.map data chunks) (deliver st (data c))).
    assert (E : deliver st (data c) = Attempt.push c st).
    { unfold deliver, on_data. now rewrite Ha, Hc. }
    rewrite E, IH by assumption. simpl. now rewrite <- app_assoc.
Qed.

Lemma executor_emits (net : Network) (k : nat) (ro : RequestOptions.t)
  (u : string) (events : list Event) :
  RequestOptions.url ro = Some u ->
  net k (fst (resolve_call u ro)) = Emits events ->
  executor net k ro = run events (begin u ro).
Proof.
  intros Hu Hn. unfold executor, begin. rewrite Hu.
  destruct (resolve_call u ro) as [c ro']. simpl in *. now rewrite Hn.
Qed.

Lemma executor_call (net : Network) (k : nat) (ro : RequestOptions.t)
  (u : string) :
  RequestOptions.url ro = Some u ->
  Attempt.call (executor net k ro) = Some (fst (resolve_call u ro)).
Proof.
  intros Hu. unfold executor. rewrite Hu.
  destruct (resolve_call u ro) as [c ro']. simpl.
  destruct (net k c); [reflexivity|]. now rewrite (proj2 (run_keeps _ _)).
Qed.

Lemma executor_started (net : Network) (k : nat) (ro : RequestOptions.t) :
  Attempt.started (executor net k ro) = ro.
Proof.
  unfold executor. destruct (RequestOptions.url ro); [|reflexivity].
  destruct (resolve_call s ro) as [c ro'].
  destruct (net k c); [reflexivity|]. now rewrite (proj1 (run_keeps _ _)).
Qed.

(** Resolving the call changes the url and the headers only. *)
Lemma resolve_call_options (u : string) (ro : RequestOptions.t) :
  let ro' := snd (resolve_call u ro) in
  RequestOptions.url ro' = Some (backfill u)
  /\ RequestOptions.followRedirect ro' = RequestOptions.followRedirect ro
  /\ RequestOptions.maxRedirects ro' = RequestOptions.maxRedirects ro.
Proof.
  unfold resolve_call. destruct (encode_body _ _). simpl. auto.
Qed.

Lemma defaults_passed (ro : RequestOptions.t) :
  RequestOptions.url (defaults (passed ro)) = RequestOptions.url ro
  /\ RequestOptions.followRedirect (defaults (passed ro))
     = RequestOptions.followRedirect ro
  /\ RequestOptions.maxRedirects (defaults (passed ro))
     = RequestOptions.maxRedirects ro.
Proof. now repeat split. Qed.

(** The events of an attempt change the url and the counter of the shared
    object, nothing else. *)
Lemma deliver_fields (st : Attempt.t) (e : Event) :
  let ro := Attempt.requestOptions st in
  let ro' := Attempt.requestOptions (deliver st e) in
  RequestOptions.method ro' = RequestOptions.method ro
  /\ RequestOptions.body ro' = RequestOptions.body ro
  /\ RequestOptions.contentType ro' = RequestOptions.contentType ro
  /\ RequestOptions.followRedirect ro' = RequestOptions.followRedirect ro
  /\ RequestOptions.timeout ro' = RequestOptions.timeout ro
  /\ RequestOptions.headers ro' = RequestOptions.headers ro.
Proof.
  unfold deliver, on_response, on_data, on_end, on_error, on_timeout,
    redirect, reject_status.
  repeat match goal with
    | |- context [if ?b then _ else _] => destruct b
    | |- context [match ?x with _ => _ end] => destruct x
    end; simpl; repeat split.
Qed.

Lemma run_fields (events : list Event) (st : Attempt.t) :
  let ro := Attempt.requestOptions st in
  let ro' := Attempt.requestOptions (run events st) in
  RequestOptions.method ro' = RequestOptions.method ro
  /\ RequestOptions.body ro' = RequestOptions.body ro
  /\ RequestOptions.contentType ro' = RequestOptions.contentType ro
  /\ RequestOptions.followRedirect ro' = RequestOptions.followRedirect ro
  /\ RequestOptions.timeout ro' = RequestOptions.timeout ro
  /\ RequestOptions.headers ro' = RequestOptions.headers ro.
Proof.
  revert st. induction events as [|e events IH]; intros st;
    [now repeat split|].
  change (run (e :: events) st) with (run events (deliver st e)).
  destruct (IH (deliver st e)) as (H1 & H2 & H3 & H4 & H5 & H6).
  destruct (deliver_fields st e) as (G1 & G2 & G3 & G4 & G5 & G6).
  cbv zeta in *. repeat split; congruence.
Qed.

End Attempts.

(** ** Missing url *)

(** The promise of a call without url is rejected with a text, and the
    executor stops before any call reaches the transport. *)
Lemma executor_no_url {platform : Platform} (net : Network) (k : nat)
  (ro : RequestOptions.t) :
  RequestOptions.url ro = None ->
  executor net k ro
  = start ro None (Rejected (Text (JSON_stringify (infoObj "URL MISSING")))) ro.
Proof. intros H. unfold executor. now rewrite H. Qed.

(** C2, as amended: for every configuration whose url is absent or null,
    the promise is rejected with the JSON text of
    [{code: "ERR", msg: "URL MISSING"}], a string, and no network attempt
    is made. *)
Theorem url_missing_rejects_with_text {platform : Platform} (fuel : nat)
  (net : Network) (k : nat) (co : CallerOptions.t) :
  CallerOptions.url co = None ->
  exists a,
    request (S fuel) net k co
    = Some (Run.make
              (Rejected (Text (JSON_stringify (infoObj "URL MISSING")))) [a])
    /\ Attempt.call a = None
    /\ calls [a] = [].
Proof.
  intros H. exists (executor net k (defaults co)).
  assert (E := executor_no_url net k (defaults co) H).
  simpl. rewrite E. simpl. auto.
Qed.

Lemma url_missing_rejects_with_text_witness :
  CallerOptions.url Scenario.no_url = None
  /\ exists a,
      request 1 (Scenario.always Scenario.stalled) 0 Scenario.no_url
      = Some (Run.make
                (Rejected (Text (Node.json (infoObj "URL MISSING")))) [a])
      /\ Attempt.call a = None
      /\ calls [a] = [].
Proof.
  split; [reflexivity|].
  apply (url_missing_rejects_with_text (platform := node) 0
           (Scenario.always Scenario.stalled) 0 Scenario.no_url).
  reflexivity.
Defined.

(** C2, as stated, fails: what the promise is rejected with is not the
    object [{code: "ERR", msg: "URL MISSING"}]. *)
Lemma url_missing_not_an_object :
  exists run,
    request 1 (Scenario.always Scenario.stalled) 0 Scenario.no_url = Some run
    /\ Run.outcome run <> Rejected (ErrorInfo (Some "ERR") (Some "URL MISSING")).
Proof.
  eexists. split; [reflexivity|]. simpl. discriminate.
Qed.

(** ** The response callback *)

Section Responses.

Context {platform : Platform}.

(** The condition of line 139, spelled out. *)
Lemma redirection_some (r : Response.t) (location : string) :
  redirection r = Some location <->
  300 <= Response.statusCode r < 400
  /\ Response.location r = Some location /\ location <> "".
Proof.
  unfold redirection.
  destruct (300 <=? Response.statusCode r) eqn:E1;
    destruct (Response.statusCode r <? 400) eqn:E2;
    destruct (Response.location r) as [[|c l]|] eqn:E3; simpl;
    split; try discriminate; try (intros (H & H1 & H2); try lia; try discriminate);
    try (injection H1 as <-; congruence).
  intros [= <-]. repeat split; try lia; discriminate.
Qed.

Lemma redirection_none (r : Response.t) :
  400 <= Response.statusCode r -> redirection r = None.
Proof.
  intros H. unfold redirection.
  destruct (Response.statusCode r <? 400) eqn:E; [lia|].
  now rewrite andb_false_r.
Qed.

Lemma response_client_error (r : Response.t) (st : Attempt.t) :
  400 <= Response.statusCode r < 500 ->
  on_response r st
  = Attempt.collect r
      (reject_status "CLIENT ERROR: " (Response.statusCode r) st).
Proof.
  intros H. unfold on_response. rewrite redirection_none by lia.
  destruct (400 <=? Response.statusCode r) eqn:E1; [|lia].
  destruct (Response.statusCode r <? 500) eqn:E2; [|lia]. reflexivity.
Qed.

Lemma response_server_error (r : Response.t) (st : Attempt.t) :
  500 <= Response.statusCode r ->
  on_response r st
  = Attempt.collect r
      (reject_status "SERVER ERROR: " (Response.statusCode r) st).
Proof.
  intros H. unfold on_response. rewrite redirection_none by lia.
  destruct (Response.statusCode r <? 500) eqn:E2; [lia|].
  rewrite andb_false_r.
  destruct (500 <=? Response.statusCode r) eqn:E3; [|lia]. reflexivity.
Qed.

(** Below 400, a response that is not a redirect to follow goes to the
    collection of the body. *)
Lemma response_collected (r : Response.t) (st : Attempt.t) :
  Response.statusCode r < 400 ->
  redirection r = None
  \/ RequestOptions.followRedirect (Attempt.requestOptions st) = false
  \/ RequestOptions.maxRedirects (Attempt.requestOptions st) <= 0 ->
  on_response r st = Attempt.collect r st.
Proof.
  intros Hs H. unfold on_response.
  destruct (redirection r) as [l|] eqn:E.
  - destruct H as [H|[H|H]]; [discriminate| |].
    + now rewrite H.
    + destruct (0 <? RequestOptions.maxRedirects (Attempt.requestOptions st))
        eqn:E'; [lia|].
      now rewrite andb_false_r.
  - destruct (400 <=? Response.statusCode r) eqn:E1; [lia|].
    destruct (500 <=? Response.statusCode r) eqn:E2; [lia|]. reflexivity.
Qed.

Lemma response_followed (r : Response.t) (st : Attempt.t) (location : string) :
  redirection r = Some location ->
  RequestOptions.followRedirect (Attempt.requestOptions st) = true ->
  0 < RequestOptions.maxRedirects (Attempt.requestOptions st) ->
  on_response r st = redirect location st.
Proof.
  intros E Hf Hm. unfold on_response. rewrite E, Hf.
  destruct (0 <? RequestOptions.maxRedirects (Attempt.requestOptions st))
    eqn:E'; [reflexivity|lia].
Qed.

(** The first two events of an attempt that gets a response. *)
Lemma run_first_response (u : string) (ro : RequestOptions.t)
  (r : Response.t) (rest : list Event) :
  run (socket :: response r :: rest) (begin u ro)
  = run rest (on_response r (Attempt.respond (connected u ro))).
Proof. reflexivity. Qed.

(** An attempt without follow-up ends the call. *)
Lemma request_single (fuel : nat) (net : Network) (k : nat)
  (co : CallerOptions.t) :
  Attempt.followup (executor net k (defaults co)) = false ->
  request (S fuel) net k co
  = Some (Run.make (Attempt.promise (executor net k (defaults co)))
            [executor net k (defaults co)]).
Proof. intros H. simpl. now rewrite H. Qed.

End Responses.

(** ** Client and server errors *)

Lemma status_reject {platform : Platform} (fuel : nat)
  (net : Network) (k : nat) (co : CallerOptions.t) (u : string)
  (r : Response.t) (rest : list Event) :
  CallerOptions.url co = Some u ->
  net k (fst (resolve_call u (defaults co)))
  = Emits (socket :: response r :: rest) ->
  400 <= Response.statusCode r ->
  exists a,
    request (S fuel) net k co
    = Some (Run.make
              (Rejected
                 (ErrorInfo (Some "ERR")
                    (Some ((if Response.statusCode r <? 500
                            then "CLIENT ERROR: " else "SERVER ERROR: ")
                           ++ Js.ofNumber (Response.statusCode r))))) [a]).
Proof.
  intros Hu Hn Hs. exists (executor net k (defaults co)).
  pose proof (executor_emits net k (defaults co) u _ Hu Hn) as E.
  rewrite run_first_response in E.
  set (st := Attempt.respond (connected u (defaults co))) in E.
  assert (Hp : Attempt.promise (on_response r st)
               = Rejected
                   (ErrorInfo (Some "ERR")
                      (Some ((if Response.statusCode r <? 500
                              then "CLIENT ERROR: " else "SERVER ERROR: ")
                             ++ Js.ofNumber (Response.statusCode r))))
               /\ Attempt.responded (on_response r st) = true
               /\ Attempt.followup (on_response r st) = false).
  { destruct (Response.statusCode r <? 500) eqn:E5.
    - rewrite response_client_error by lia. now repeat split.
    - rewrite response_server_error by lia. now repeat split. }
  destruct Hp as (Hp & Hr & Hf).
  rewrite request_single.
  - rewrite E, run_settled; rewrite Hp; [reflexivity|discriminate].
  - rewrite E. now rewrite (proj1 (run_responded _ _ Hr)).
Qed.

(** C3: for every response with status in [400,500), the call rejects
    with [{code: "ERR", msg: "CLIENT ERROR: <status>"}], and for every
    response with status at least 500 with
    [{code: "ERR", msg: "SERVER ERROR: <status>"}].  This holds at any
    attempt [k] of a call, whatever the events that follow the response. *)
Theorem status_errors_reject {platform : Platform} (fuel : nat)
  (net : Network) (k : nat) (co : CallerOptions.t) (u : string)
  (r : Response.t) (rest : list Event) :
  CallerOptions.url co = Some u ->
  net k (fst (resolve_call u (defaults co)))
  = Emits (socket :: response r :: rest) ->
  (400 <= Response.statusCode r < 500 ->
   exists a,
     request (S fuel) net k co
     = Some (Run.make
               (Rejected
                  (ErrorInfo (Some "ERR")
                     (Some ("CLIENT ERROR: "
                            ++ Js.ofNumber (Response.statusCode r))))) [a]))
  /\ (500 <= Response.statusCode r ->
      exists a,
        request (S fuel) net k co
        = Some (Run.make
                  (Rejected
                     (ErrorInfo (Some "ERR")
                        (Some ("SERVER ERROR: "
                               ++ Js.ofNumber (Response.statusCode r))))) [a])).
Proof.
  intros Hu Hn. split; intros Hs.
  - destruct (status_reject fuel net k co u r rest Hu Hn) as [a Ha]; [lia|].
    exists a. rewrite Ha.
    destruct (Response.statusCode r <? 500) eqn:E; [reflexivity|lia].
  - destruct (status_reject fuel net k co u r rest Hu Hn) as [a Ha]; [lia|].
    exists a. rewrite Ha.
    destruct (Response.statusCode r <? 500) eqn:E; [lia|reflexivity].
Qed.

Lemma status_errors_reject_witness :
  CallerOptions.url (Scenario.get "example.com/missing")
  = Some "example.com/missing"
  /\ Scenario.always (Scenario.answer 404 [] ["not "; "found"]) 0%nat
       (fst (resolve_call "example.com/missing"
               (defaults (Scenario.get "example.com/missing"))))
     = Emits (socket :: response (Response.make 404 [])
                :: [data "not "; data "found"; end_])
  /\ exists a,
      request 1 (Scenario.always (Scenario.answer 404 [] ["not "; "found"])) 0
        (Scenario.get "example.com/missing")
      = Some (Run.make
                (Rejected (ErrorInfo (Some "ERR") (Some "CLIENT ERROR: 404"))) [a]).
Proof.
  split; [reflexivity|]. split; [reflexivity|].
  apply (status_errors_reject (platform := node) 0
           (Scenario.always (Scenario.answer 404 [] ["not "; "found"])) 0
           (Scenario.get "example.com/missing") "example.com/missing"
           (Response.make 404 []) [data "not "; data "found"; end_]
           eq_refl eq_refl).
  simpl. lia.
Defined.

Example server_error_503 :
  option_map Run.outcome
    (request 1 (Scenario.always (Scenario.answer 503 [] [])) 0
       (Scenario.get "https://example.com"))
  = Some (Rejected (ErrorInfo (Some "ERR") (Some "SERVER ERROR: 503"))).
Proof. reflexivity. Qed.

(** ** One attempt, its response and the counter *)

Section Steps.

Context {platform : Platform}.

(** A response below 400 that is not a redirect to follow, then its body
    and its end: the attempt fulfils the promise and chains nothing. *)
Lemma collected_resolves (net : Network) (k : nat) (ro : RequestOptions.t)
  (u : string) (r : Response.t) (chunks : list string) (rest : list Event) :
  RequestOptions.url ro = Some u ->
  net k (fst (resolve_call u ro))
  = Emits (socket :: response r :: List.map data chunks ++ end_ :: rest) ->
  Response.statusCode r < 400 ->
  redirection r = None
  \/ RequestOptions.followRedirect ro = false
  \/ RequestOptions.maxRedirects ro <= 0 ->
  Attempt.promise (executor net k ro)
  = Fulfilled
      (RequestResult.make (Response.statusCode r)
         (JSON_stringify (Response.headersObject r)) (Js.join chunks))
  /\ Attempt.followup (executor net k ro) = false
  /\ RequestOptions.maxRedirects (Attempt.requestOptions (executor net k ro))
     = RequestOptions.maxRedirects ro.
Proof.
  intros Hu Hn Hs Hc.
  pose proof (executor_emits net k ro u _ Hu Hn) as E.
  rewrite run_first_response in E.
  set (st := Attempt.respond (connected u ro)) in E.
  destruct (resolve_call_options u ro) as (_ & Hf & Hm).
  assert (Hr : on_response r st = Attempt.collect r st).
  { apply response_collected; [lia|].
    destruct Hc as [Hc|[Hc|Hc]]; [now left| |].
    - right. left. simpl. now rewrite Hf.
    - right. right. simpl. now rewrite Hm. }
  rewrite Hr, run_app in E.
  rewrite (run_data chunks (Attempt.collect r st) r) in E by reflexivity.
  change (run (end_ :: rest) ?s) with (run rest (deliver s end_)) in E.
  match type of E with _ = run rest ?s => set (done := s) in E end.
  rewrite E. split; [|split].
  - rewrite run_settled; [reflexivity|discriminate].
  - now rewrite (proj1 (run_responded rest done eq_refl)).
  - rewrite (proj2 (run_responded rest done eq_refl)). exact Hm.
Qed.

(** A redirect that is followed: the attempt ends in the state that the
    redirect branch leaves. *)
Lemma followed (net : Network) (k : nat) (ro : RequestOptions.t)
  (u : string) (r : Response.t) (rest : list Event) (location : string) :
  RequestOptions.url ro = Some u ->
  net k (fst (resolve_call u ro)) = Emits (socket :: response r :: rest) ->
  redirection r = Some location ->
  RequestOptions.followRedirect ro = true ->
  0 < RequestOptions.maxRedirects ro ->
  executor net k ro
  = redirect location (Attempt.respond (connected u ro)).
Proof.
  intros Hu Hn Hr Hf Hm.
  rewrite (executor_emits net k ro u _ Hu Hn), run_first_response.
  destruct (resolve_call_options u ro) as (_ & Hf' & Hm').
  rewrite (response_followed r _ location Hr).
  - now apply run_aborted.
  - simpl. now rewrite Hf'.
  - simpl. now rewrite Hm'.
Qed.

(** Whatever the transport does, an attempt moves the counter by
    [counter_step]. *)
Lemma run_counter (events : list Event) (st : Attempt.t) (n : Z) :
  (Attempt.followup st = true /\ Attempt.aborted st = true /\ 0 < n
   /\ RequestOptions.maxRedirects (Attempt.requestOptions st)
      = Js.decrement n)
  \/ (Attempt.followup st = false
      /\ RequestOptions.maxRedirects (Attempt.requestOptions st) = n) ->
  (Attempt.followup (run events st) = true /\ 0 < n
   /\ RequestOptions.maxRedirects (Attempt.requestOptions (run events st))
      = Js.decrement n)
  \/ (Attempt.followup (run events st) = false
      /\ RequestOptions.maxRedirects (Attempt.requestOptions (run events st))
         = n).
Proof.
  revert st. induction events as [|e events IH]; intros st H.
  - simpl. destruct H as [(H1 & _ & H2 & H3)|H]; auto.
  - change (run (e :: events) st) with (run events (deliver st e)).
    apply IH. destruct H as [(H1 & H2 & H3 & H4)|(H1 & H2)].
    + left. unfold deliver. rewrite H2. auto.
    + unfold deliver. destruct (Attempt.aborted st) eqn:Ea; [now right|].
      destruct e; simpl;
        try (right; unfold on_error, on_data, on_end;
             repeat match goal with
               | |- context [match ?x with _ => _ end] => destruct x
               end; simpl; now split).
      destruct (Attempt.responded st); [now right|].
      unfold on_response. simpl.
      destruct (redirection r) as [l|].
      * destruct (RequestOptions.followRedirect (Attempt.requestOptions st));
          simpl; [|now right].
        destruct (0 <? RequestOptions.maxRedirects (Attempt.requestOptions st))
          eqn:Em; [|now right].
        left. simpl. repeat split; try lia. now rewrite H2.
      * repeat match goal with
          | |- context [if ?b then _ else _] => destruct b
          end; right; now split.
Qed.

Lemma executor_counter (net : Network) (k : nat) (ro : RequestOptions.t) :
  Attempt.started (executor net k ro) = ro
  /\ counter_step (executor net k ro).
Proof.
  split; [apply executor_started|].
  unfold counter_step. rewrite executor_started.
  unfold executor. destruct (RequestOptions.url ro) as [u|] eqn:Hu.
  - destruct (resolve_call_options u ro) as (_ & _ & Hm).
    destruct (resolve_call u ro) as [c ro'] eqn:Ec. simpl in Hm.
    destruct (net k c) as [e|events]; [simpl; exact Hm|].
    destruct (run_counter events (start ro (Some c) Pending ro')
                (RequestOptions.maxRedirects ro)) as [(H1 & H2 & H3)|(H1 & H2)].
    + right. now split.
    + rewrite H1. now split.
    + now rewrite H1.
  - reflexivity.
Qed.

End Steps.

(** ** Redirects that are not followed *)

(** C4: for every response with status in [300,400) where the conditions
    to follow a redirect are not all met (no location header, or an empty
    one; [followRedirect] false; [maxRedirects] at 0), nothing is followed:
    the attempt collects the body and the call resolves with the status,
    the headers and the concatenated body of that response. *)
Theorem unfollowed_redirect_resolves {platform : Platform} (fuel : nat)
  (net : Network) (k : nat) (co : CallerOptions.t) (u : string)
  (r : Response.t) (chunks : list string) (rest : list Event) :
  CallerOptions.url co = Some u ->
  net k (fst (resolve_call u (defaults co)))
  = Emits (socket :: response r :: List.map data chunks ++ end_ :: rest) ->
  300 <= Response.statusCode r < 400 ->
  Js.truthy (Response.location r) = false
  \/ RequestOptions.followRedirect (defaults co) = false
  \/ RequestOptions.maxRedirects (defaults co) <= 0 ->
  exists a,
    request (S fuel) net k co
    = Some (Run.make
              (Fulfilled
                 (RequestResult.make (Response.statusCode r)
                    (JSON_stringify (Response.headersObject r))
                    (Js.join chunks))) [a]).
Proof.
  intros Hu Hn Hs Hc. exists (executor net k (defaults co)).
  destruct (collected_resolves net k (defaults co) u r chunks rest Hu Hn)
    as (Hp & Hf & _); [lia| |].
  - destruct Hc as [Hc|[Hc|Hc]]; auto.
    left. unfold redirection. rewrite Hc. now rewrite andb_false_r.
  - now rewrite (request_single fuel net k co Hf), Hp.
Qed.

Lemma unfollowed_redirect_resolves_witness :
  CallerOptions.url (Scenario.bounded "http://example.com/old" 0)
  = Some "http://example.com/old"
  /\ Scenario.always
       (Scenario.answer 301 [("location", "/new")] ["mo"; "ved"]) 0%nat
       (fst (resolve_call "http://example.com/old"
               (defaults (Scenario.bounded "http://example.com/old" 0))))
     = Emits (socket :: response (Response.make 301 [("location", "/new")])
                :: List.map data ["mo"; "ved"] ++ end_ :: [])
  /\ 300 <= 301 < 400
  /\ exists a,
      request 1
        (Scenario.always
           (Scenario.answer 301 [("location", "/new")] ["mo"; "ved"])) 0
        (Scenario.bounded "http://example.com/old" 0)
      = Some (Run.make
                (Fulfilled
                   (RequestResult.make 301
                      (Node.json [("location", Js.Str "/new")]) "moved"))
                [a]).
Proof.
  split; [reflexivity|]. split; [reflexivity|]. split; [lia|].
  apply (unfollowed_redirect_resolves (platform := node) 0
           (Scenario.always
              (Scenario.answer 301 [("location", "/new")] ["mo"; "ved"])) 0
           (Scenario.bounded "http://example.com/old" 0)
           "http://example.com/old"
           (Response.make 301 [("location", "/new")]) ["mo"; "ved"] []
           eq_refl eq_refl).
  - simpl. lia.
  - right. right. simpl. lia.
Defined.

(** The three cases of the claim, run: no location, redirects turned off,
    counter at 0. *)
Example unfollowed_no_location :
  option_map Run.outcome
    (request 1 (Scenario.always (Scenario.answer 304 [] ["a"; "b"])) 0
       (Scenario.get "http://example.com"))
  = Some (Fulfilled (RequestResult.make 304 "{}" "ab")).
Proof. reflexivity. Qed.

Example unfollowed_turned_off :
  option_map (fun run => List.length (Run.attempts run))
    (request 5
       (Scenario.always (Scenario.answer 302 [("location", "/b")] []))
       0
       (CallerOptions.make (Some "http://example.com") None None None
          (Some false) None None None))
  = Some 1%nat.
Proof. reflexivity. Qed.

(** ** The chain of redirects *)

Section Chain.

Context {platform : Platform}.

Lemma final_counter_cons (a : Attempt.t) (rest : list Attempt.t) (n : Z) :
  final_counter rest = Some n -> final_counter (a :: rest) = Some n.
Proof. destruct rest; [discriminate|auto]. Qed.

(** [n] followed redirects from attempt [k] on, then a response below 400
    at attempt [k + n], with the counter at [n] when attempt [k] begins. *)
Lemma chain (net : Network) (r : Response.t) (chunks : list string)
  (rest : list Event) (n : nat) :
  forall (k : nat) (co : CallerOptions.t) (u : string) (fuel : nat),
  CallerOptions.url co = Some u ->
  RequestOptions.followRedirect (defaults co) = true ->
  RequestOptions.maxRedirects (defaults co) = Z.of_nat n ->
  Z.of_nat n <= Js.exact ->
  (forall i c, (i < n)%nat ->
     exists r' rest' location,
       net (k + i)%nat c = Emits (socket :: response r' :: rest')
       /\ redirection r' = Some location) ->
  (forall c,
     net (k + n)%nat c
     = Emits (socket :: response r :: List.map data chunks ++ end_ :: rest)) ->
  Response.statusCode r < 400 ->
  (n < fuel)%nat ->
  exists run,
    request fuel net k co = Some run
    /\ Run.outcome run
       = Fulfilled
           (RequestResult.make (Response.statusCode r)
              (JSON_stringify (Response.headersObject r)) (Js.join chunks))
    /\ counters (Run.attempts run) = countdown n
    /\ final_counter (Run.attempts run) = Some 0.
Proof.
  induction n as [|n IH];
    intros k co u fuel Hu Hf Hm Hex Hred Hlast Hs Hfuel.
  - destruct fuel as [|fuel]; [lia|].
    rewrite Nat.add_0_r in Hlast.
    destruct (collected_resolves net k (defaults co) u r chunks rest Hu
                (Hlast _) Hs) as (Hp & Hfl & Hc).
    { right. right. rewrite Hm. simpl. lia. }
    rewrite (request_single fuel net k co Hfl). eexists. split; [reflexivity|].
    simpl. rewrite Hp, Hc, Hm, executor_started, Hm. auto.
  - destruct fuel as [|fuel]; [lia|].
    destruct (Hred 0%nat (fst (resolve_call u (defaults co)))) as
      (r' & rest' & location & Hn & Hl); [lia|].
    rewrite Nat.add_0_r in Hn.
    pose proof (followed net k (defaults co) u r' rest' location Hu Hn Hl Hf)
      as E.
    destruct (resolve_call_options u (defaults co)) as (_ & Hf' & Hm').
    specialize (E ltac:(lia)).
    set (a := executor net k (defaults co)) in *.
    assert (Ha : Attempt.followup a = true
                 /\ Attempt.promise a = Adopted
                 /\ (exists target,
                       RequestOptions.url (Attempt.requestOptions a)
                       = Some target)
                 /\ RequestOptions.followRedirect (Attempt.requestOptions a)
                    = true
                 /\ RequestOptions.maxRedirects (Attempt.requestOptions a)
                    = Z.of_nat n).
    { rewrite E. simpl. repeat split.
      - eexists. reflexivity.
      - now rewrite Hf'.
      - rewrite Hm', Hm, decrement_exact; lia. }
    destruct Ha as (Ha1 & Ha2 & (target & Ha3) & Ha4 & Ha5).
    destruct (IH (S k) (passed (Attempt.requestOptions a)) target fuel)
      as (run & Hrun & Hout & Hcount & Hfinal); auto; try lia.
    + intros i c Hi. replace (S k + i)%nat with (k + S i)%nat by lia.
      apply Hred. lia.
    + intros c. replace (S k + n)%nat with (k + S n)%nat by lia. apply Hlast.
    + simpl. fold a. rewrite Ha1, Hrun. eexists. split; [reflexivity|].
      simpl. rewrite Ha2. simpl. split; [exact Hout|]. split.
      * rewrite Hcount. f_equal. unfold a. now rewrite executor_started, Hm.
      * destruct (Run.attempts run); [discriminate|exact Hfinal].
Qed.

End Chain.

Lemma countdown_length (n : nat) : List.length (countdown n) = S n.
Proof. induction n as [|n IH]; simpl; [reflexivity|]. now rewrite IH. Qed.

(** C1: with [followRedirect] true and [maxRedirects = n], where [n] is at
    most 2^53 so that the decrement of the counter is exact, when the server
    answers the first [n] attempts with 3xx responses that carry a
    location (one that the test of line 139 sees: present and not empty)
    and the next one with a 2xx response, the call makes exactly
    [n] chained attempts after the first, takes one off the counter at
    each of them (it starts the attempts at [n], [n-1], ..., [0] and ends
    at 0) and resolves with the 2xx response.  When the answer to attempt
    [n] is one more 3xx response with a location, it is not followed,
    the counter being at 0: the call resolves with that response after the
    same [n] chained attempts. *)
Theorem redirects_followed_up_to_the_bound {platform : Platform}
  (net : Network) (n : nat) (co : CallerOptions.t) (u : string)
  (r : Response.t) (chunks : list string) (fuel : nat) :
  CallerOptions.url co = Some u ->
  RequestOptions.followRedirect (defaults co) = true ->
  RequestOptions.maxRedirects (defaults co) = Z.of_nat n ->
  Z.of_nat n <= Js.exact ->
  (forall i c, (i < n)%nat ->
     exists r' rest location,
       net i c = Emits (socket :: response r' :: rest)
       /\ 300 <= Response.statusCode r' < 400
       /\ Response.location r' = Some location
       /\ Js.truthy (Some location) = true) ->
  (forall c,
     net n c = Emits (socket :: response r :: List.map data chunks ++ [end_])) ->
  200 <= Response.statusCode r < 300
  \/ (300 <= Response.statusCode r < 400
      /\ Js.truthy (Response.location r) = true) ->
  (n < fuel)%nat ->
  exists run,
    request fuel net 0 co = Some run
    /\ Run.outcome run
       = Fulfilled
           (RequestResult.make (Response.statusCode r)
              (JSON_stringify (Response.headersObject r)) (Js.join chunks))
    /\ List.length (Run.attempts run) = S n
    /\ counters (Run.attempts run) = countdown n
    /\ final_counter (Run.attempts run) = Some 0.
Proof.
  intros Hu Hf Hm Hex Hred Hlast Hs Hfuel.
  destruct (chain net r chunks [] n 0%nat co u fuel Hu Hf Hm Hex) as
    (run & Hrun & Hout & Hcount & Hfinal); auto.
  - intros i c Hi. destruct (Hred i c Hi) as (r' & rest & l & H1 & H2).
    exists r', rest, l. split; [exact H1|]. apply redirection_some.
    destruct H2 as (H2 & H3 & H4). repeat split; try lia; try exact H3.
    intros ->. discriminate H4.
  - destruct Hs as [Hs|[Hs _]]; lia.
  - exists run. repeat split; auto.
    rewrite <- (countdown_length n), <- Hcount. unfold counters.
    now rewrite length_map.
Qed.

Lemma redirects_followed_up_to_the_bound_witness :
  exists run,
    request 3
      (Scenario.hops 2 "/next" (Scenario.answer 200 [] ["ab"; "cd"])) 0
      (Scenario.bounded "http://example.com/start" 2)
    = Some run
    /\ Run.outcome run = Fulfilled (RequestResult.make 200 "{}" "abcd")
    /\ List.length (Run.attempts run) = 3%nat
    /\ counters (Run.attempts run) = [2; 1; 0]
    /\ final_counter (Run.attempts run) = Some 0.
Proof.
  apply (redirects_followed_up_to_the_bound (platform := node)
           (Scenario.hops 2 "/next" (Scenario.answer 200 [] ["ab"; "cd"]))
           2 (Scenario.bounded "http://example.com/start" 2)
           "http://example.com/start" (Response.make 200 []) ["ab"; "cd"] 3
           eq_refl eq_refl eq_refl).
  - unfold Js.exact. simpl. lia.
  - intros i c Hi. exists (Response.make 302 [("location", "/next")]).
    exists [end_], "/next".
    destruct i as [|[|i]]; [| |lia];
      (split; [reflexivity|]; split; [simpl; lia|]; split; reflexivity).
  - intros c. reflexivity.
  - left. simpl. lia.
  - lia.
Defined.

(** One redirect more than the counter allows: the third is the result. *)
Example redirect_beyond_the_bound :
  option_map
    (fun run => (Run.outcome run, counters (Run.attempts run)))
    (request 9
       (Scenario.always
          (Scenario.answer 302 [("location", "http://example.com/again")]
             ["see other"]))
       0 (Scenario.bounded "http://example.com/start" 2))
  = Some (Fulfilled
            (RequestResult.make 302
               (Node.json [("location", Js.Str "http://example.com/again")])
               "see other"),
          [2; 1; 0]).
Proof. reflexivity. Qed.

(** ** The counter of redirects *)

(** C9, as amended: for every initial [maxRedirects] from 0 to 2^53, up
    to where the decrement of a JavaScript number is exact, the counter
    never becomes negative (an attempt takes one off only when it is
    positive), no redirect is followed once it is at 0, and the chain of
    follow-up calls ends: whatever the transport does, fuel above the
    initial counter is enough for [request] to return, after at most that
    many follow-up attempts, each of which starts with the counter one
    below the attempt before. *)
Theorem redirect_counter_bounds_the_chain {platform : Platform}
  (net : Network) (fuel : nat) :
  forall (k : nat) (co : CallerOptions.t),
  0 <= RequestOptions.maxRedirects (defaults co) <= Js.exact ->
  (Z.to_nat (RequestOptions.maxRedirects (defaults co)) < fuel)%nat ->
  exists run,
    request fuel net k co = Some run
    /\ (List.length (Run.attempts run)
        <= S (Z.to_nat (RequestOptions.maxRedirects (defaults co))))%nat
    /\ Forall
         (fun a =>
            0 <= RequestOptions.maxRedirects (Attempt.started a)
            /\ 0 <= RequestOptions.maxRedirects (Attempt.requestOptions a)
            /\ counter_step a
            /\ (RequestOptions.maxRedirects (Attempt.started a) = 0 ->
                Attempt.followup a = false))
         (Run.attempts run)
    /\ descending (counters (Run.attempts run))
    /\ List.hd_error (counters (Run.attempts run))
       = Some (RequestOptions.maxRedirects (defaults co)).
Proof.
  induction fuel as [|fuel IH]; intros k co Hm Hfuel; [lia|].
  destruct (executor_counter net k (defaults co)) as [Hs Hc].
  set (a := executor net k (defaults co)) in *.
  assert (Ha : 0 <= RequestOptions.maxRedirects (Attempt.started a)
               /\ 0 <= RequestOptions.maxRedirects (Attempt.requestOptions a)
               /\ counter_step a
               /\ (RequestOptions.maxRedirects (Attempt.started a) = 0 ->
                   Attempt.followup a = false)).
  { split; [rewrite Hs; lia|]. split; [|split; [exact Hc|]].
    - unfold counter_step in Hc. rewrite Hs in Hc.
      destruct (Attempt.followup a).
      + destruct Hc as [Hpos ->]. rewrite decrement_exact; lia.
      + rewrite Hc. lia.
    - unfold counter_step in Hc. rewrite Hs in *.
      destruct (Attempt.followup a); [lia|reflexivity]. }
  assert (Hreq : request (S fuel) net k co
                 = if Attempt.followup a
                   then match request fuel net (S k)
                                (passed (Attempt.requestOptions a)) with
                        | Some inner =>
                            Some (Run.make
                                    (adopt (Attempt.promise a)
                                       (Run.outcome inner))
                                    (a :: Run.attempts inner))
                        | None => None
                        end
                   else Some (Run.make (Attempt.promise a) [a]))
    by reflexivity.
  rewrite Hreq. clear Hreq.
  destruct (Attempt.followup a) eqn:Hf.
  - unfold counter_step in Hc. rewrite Hf, Hs in Hc. destruct Hc as [Hpos Hdec].
    rewrite decrement_exact in Hdec by lia.
    destruct (IH (S k) (passed (Attempt.requestOptions a))) as
      (run & Hrun & Hlen & Hall & Hdesc & Hhead).
    + destruct (defaults_passed (Attempt.requestOptions a)) as (_ & _ & ->).
      lia.
    + destruct (defaults_passed (Attempt.requestOptions a)) as (_ & _ & ->).
      lia.
    + destruct (defaults_passed (Attempt.requestOptions a)) as (_ & _ & E).
      rewrite E, Hdec in Hlen, Hhead. clear E.
      rewrite Hrun. eexists. split; [reflexivity|].
      cbn [Run.attempts Run.outcome]. repeat split.
      * cbn [List.length]. lia.
      * constructor; [|exact Hall]. cbv beta. rewrite Hf. exact Ha.
      * unfold counters in *. cbn [List.map].
        destruct (Run.attempts run) as [|b rest]; [exact I|].
        cbn [List.map hd_error descending] in *.
        injection Hhead as Hb. split; [now rewrite Hs|exact Hdesc].
      * unfold counters. cbn [List.map hd_error]. now rewrite Hs.
  - eexists. split; [reflexivity|].
    cbn [Run.attempts Run.outcome]. repeat split.
    + cbn [List.length]. lia.
    + constructor; [|constructor]. cbv beta. rewrite Hf. exact Ha.
    + unfold counters. cbn [List.map hd_error]. now rewrite Hs.
Qed.

Lemma redirect_counter_bounds_the_chain_witness :
  0 <= 2 <= Js.exact
  /\ exists run,
      request 3
        (Scenario.always (Scenario.answer 302 [("location", "/loop")] []))
        0 (Scenario.bounded "example.com" 2)
      = Some run
      /\ (List.length (Run.attempts run) <= 3)%nat
      /\ descending (counters (Run.attempts run))
      /\ List.hd_error (counters (Run.attempts run)) = Some 2.
Proof.
  split; [unfold Js.exact; lia|].
  destruct (redirect_counter_bounds_the_chain (platform := node)
              (Scenario.always
                 (Scenario.answer 302 [("location", "/loop")] []))
              3 0 (Scenario.bounded "example.com" 2))
    as (run & H1 & H2 & _ & H3 & H4).
  - unfold Js.exact. simpl. lia.
  - simpl. lia.
  - exists run. auto.
Defined.

Section Unbounded.

Context {platform : Platform}.

(** A counter that the decrement leaves as it is never stops a server
    that redirects every attempt. *)
Lemma stuck_counter_never_returns (net : Network) (m : Z) :
  0 < m -> Js.decrement m = m ->
  (forall k c,
     exists r rest location,
       net k c = Emits (socket :: response r :: rest)
       /\ redirection r = Some location) ->
  forall (fuel k : nat) (co : CallerOptions.t) (u : string),
  CallerOptions.url co = Some u ->
  RequestOptions.followRedirect (defaults co) = true ->
  RequestOptions.maxRedirects (defaults co) = m ->
  request fuel net k co = None.
Proof.
  intros Hm Hd Hnet.
  induction fuel as [|fuel IH]; intros k co u Hu Hf Hc; [reflexivity|].
  destruct (Hnet k (fst (resolve_call u (defaults co))))
    as (r & rest & location & Hn & Hl).
  pose proof (followed net k (defaults co) u r rest location Hu Hn Hl Hf)
    as E.
  specialize (E ltac:(lia)).
  destruct (resolve_call_options u (defaults co)) as (_ & Hf' & Hm').
  set (a := executor net k (defaults co)) in *.
  assert (Ha : Attempt.followup a = true
               /\ (exists target,
                     RequestOptions.url (Attempt.requestOptions a)
                     = Some target)
               /\ RequestOptions.followRedirect (Attempt.requestOptions a)
                  = true
               /\ RequestOptions.maxRedirects (Attempt.requestOptions a) = m).
  { rewrite E. simpl. repeat split.
    - eexists. reflexivity.
    - now rewrite Hf'.
    - now rewrite Hm', Hc, Hd. }
  destruct Ha as (Ha1 & (target & Ha2) & Ha3 & Ha4).
  change (request (S fuel) net k co)
    with (if Attempt.followup a
          then match request fuel net (S k)
                       (passed (Attempt.requestOptions a)) with
               | Some inner =>
                   Some (Run.make
                           (adopt (Attempt.promise a) (Run.outcome inner))
                           (a :: Run.attempts inner))
               | None => None
               end
          else Some (Run.make (Attempt.promise a) [a])).
  rewrite Ha1.
  now rewrite (IH (S k) (passed (Attempt.requestOptions a)) target Ha2 Ha3 Ha4).
Qed.

End Unbounded.

(** C9, as stated, fails: at [maxRedirects = 9007199254740996] the
    decrement of lines 143 and 149 leaves the counter as it is, so the
    counter of the follow-up attempt is not below the one before, and
    against a server that redirects every attempt the chain of follow-up
    calls has no end: no fuel makes [request] return. *)
Lemma large_counter_is_not_decremented :
  0 <= 9007199254740996
  /\ Attempt.followup
       (executor Sample.looping 0
          (defaults (Scenario.bounded "example.com" 9007199254740996)))
     = true
  /\ RequestOptions.maxRedirects
       (Attempt.requestOptions
          (executor Sample.looping 0
             (defaults (Scenario.bounded "example.com" 9007199254740996))))
     = 9007199254740996
  /\ ~ exists fuel run,
        request fuel Sample.looping 0
          (Scenario.bounded "example.com" 9007199254740996)
        = Some run.
Proof.
  split; [lia|]. split; [vm_compute; reflexivity|].
  split; [vm_compute; reflexivity|].
  intros (fuel & run & H).
  rewrite (stuck_counter_never_returns (platform := node) Sample.looping
             9007199254740996) with (u := "example.com") in H.
  - discriminate H.
  - lia.
  - vm_compute. reflexivity.
  - intros k c. exists (Response.make 302 [("location", "/again")]).
    exists [end_], "/again". split; reflexivity.
  - reflexivity.
  - reflexivity.
  - reflexivity.
Qed.

(** ** The resolved call *)

Section Calls.

Context {platform : Platform}.

Lemma encode_body_keeps (ro : RequestOptions.t) (o : Options.t) :
  Options.hostname (fst (encode_body ro o)) = Options.hostname o
  /\ Options.port (fst (encode_body ro o)) = Options.port o
  /\ Options.method (fst (encode_body ro o)) = Options.method o.
Proof.
  unfold encode_body. destruct (RequestOptions.body ro); [|now repeat split].
  destruct (String.eqb (RequestOptions.method ro) "GET"); now repeat split.
Qed.

(** The module, the host and the port of a call come from the url after
    the backfill. *)
Lemma resolve_call_target (u : string) (ro : RequestOptions.t) :
  let c := fst (resolve_call u ro) in
  Call.lib c = (if Js.startsWith (backfill u) "https" then https else http)
  /\ Options.hostname (Call.options c) = Url.hostname (url_parse (backfill u))
  /\ Options.port (Call.options c) = resolve_port (url_parse (backfill u)).
Proof.
  unfold resolve_call.
  match goal with
  | |- context [encode_body ro ?o] =>
      destruct (encode_body_keeps ro o) as (H1 & H2 & _);
      destruct (encode_body ro o) as [o' p]
  end.
  simpl in *. now rewrite H1, H2.
Qed.

(** The payload and the content headers of a call with a body and a
    method other than GET. *)
Lemma resolve_call_payload (u : string) (ro : RequestOptions.t)
  (b : Js.Object) :
  RequestOptions.body ro = Some b ->
  RequestOptions.method ro <> "GET" ->
  let c := fst (resolve_call u ro) in
  Call.postData c = Some (JSON_stringify b)
  /\ Js.get (Options.headers (Call.options c)) "Content-Type"
     = Some (Js.Str (if String.eqb (RequestOptions.contentType ro) "JSON"
                     then "application/json"
                     else "application/x-www-form-urlencoded"))
  /\ Js.get (Options.headers (Call.options c)) "Content-Length"
     = Some (Js.Num (Z.of_nat (Js.length (JSON_stringify b)))).
Proof.
  intros Hb Hm. apply String.eqb_neq in Hm.
  unfold resolve_call, encode_body. rewrite Hb, Hm. simpl.
  unfold content_headers. split; [reflexivity|]. split.
  - rewrite get_set_other by discriminate. rewrite get_set_same.
    now destruct (String.eqb (RequestOptions.contentType ro) "JSON");
      [|destruct (String.eqb (RequestOptions.contentType ro) "FORM")].
  - apply get_set_same.
Qed.

(** A url with the http scheme selects the http module, one with the
    https scheme the https module. *)
Lemma startsWith_http (s : string) : Js.startsWith ("http://" ++ s) "https" = false.
Proof. reflexivity. Qed.

Lemma startsWith_https (s : string) : Js.startsWith ("https://" ++ s) "https" = true.
Proof. now destruct s. Qed.

End Calls.

(** Text made of ASCII characters has as many code units as octets. *)
Lemma length_ascii_text (s : string) :
  Node.all (fun c => (nat_of_ascii c <? 128)%nat) s = true ->
  Js.length s = Js.byteLength s.
Proof.
  induction s as [|c s IH]; intros H; [reflexivity|].
  simpl in H. apply andb_true_iff in H. destruct H as [Hc Hs].
  unfold Js.byteLength in *. simpl. unfold Js.units. rewrite Hc.
  now rewrite (IH Hs).
Qed.

(** ** The body on the wire *)

(** C5: for every request with a body and a method other than GET, the
    payload written is the JSON text of the body whatever the content
    type; the content type only decides the [Content-Type] header:
    [application/json] for [JSON], [application/x-www-form-urlencoded] for
    [FORM] and for anything else. *)
Theorem payload_is_json_whatever_the_type {platform : Platform}
  (net : Network) (k : nat) (co : CallerOptions.t) (u : string)
  (b : Js.Object) :
  CallerOptions.url co = Some u ->
  CallerOptions.body co = Some b ->
  RequestOptions.method (defaults co) <> "GET" ->
  exists c,
    Attempt.call (executor net k (defaults co)) = Some c
    /\ Call.postData c = Some (JSON_stringify b)
    /\ Js.get (Options.headers (Call.options c)) "Content-Type"
       = Some (Js.Str
                 (if String.eqb (RequestOptions.contentType (defaults co)) "JSON"
                  then "application/json"
                  else "application/x-www-form-urlencoded")).
Proof.
  intros Hu Hb Hm. exists (fst (resolve_call u (defaults co))).
  split; [now apply executor_call|].
  destruct (resolve_call_payload u (defaults co) b Hb Hm) as (H1 & H2 & _).
  now split.
Qed.

Lemma payload_is_json_whatever_the_type_witness :
  exists c,
    Attempt.call
      (executor (Scenario.always (Scenario.answer 200 [] [])) 0
         (defaults
            (Scenario.post "http://example.com/form" "form"
               [("msg", Js.Str "Post test"); ("number", Js.Num 1968)])))
    = Some c
    /\ Call.postData c
       = Some (Node.json [("msg", Js.Str "Post test"); ("number", Js.Num 1968)])
    /\ Js.get (Options.headers (Call.options c)) "Content-Type"
       = Some (Js.Str "application/x-www-form-urlencoded").
Proof.
  apply (payload_is_json_whatever_the_type (platform := node)
           (Scenario.always (Scenario.answer 200 [] [])) 0
           (Scenario.post "http://example.com/form" "form"
              [("msg", Js.Str "Post test"); ("number", Js.Num 1968)])
           "http://example.com/form"
           [("msg", Js.Str "Post test"); ("number", Js.Num 1968)]
           eq_refl eq_refl).
  simpl. discriminate.
Defined.

Example payload_json_type :
  option_map
    (fun c => (Call.postData c,
               Js.get (Options.headers (Call.options c)) "Content-Type"))
    (Attempt.call
       (executor (Scenario.always (Scenario.answer 200 [] [])) 0
          (defaults
             (Scenario.post "http://example.com/api" "Json"
                [("ok", Js.Bool true)]))))
  = Some (Some ("{" ++ Js.dquote ++ "ok" ++ Js.dquote ++ ":true}"),
          Some (Js.Str "application/json")).
Proof. reflexivity. Qed.

(** What the code puts in [Content-Length] is the [length] of the JSON
    text, which is its number of octets when the text is ASCII. *)
Lemma content_length_of_ascii_payload {platform : Platform} (u : string)
  (ro : RequestOptions.t) (b : Js.Object) :
  RequestOptions.body ro = Some b ->
  RequestOptions.method ro <> "GET" ->
  Node.all (fun c => (nat_of_ascii c <? 128)%nat) (JSON_stringify b) = true ->
  Js.get (Options.headers (Call.options (fst (resolve_call u ro))))
    "Content-Length"
  = Some (Js.Num (Z.of_nat (Js.byteLength (JSON_stringify b)))).
Proof.
  intros Hb Hm Ha.
  destruct (resolve_call_payload u ro b Hb Hm) as (_ & _ & H).
  now rewrite H, (length_ascii_text _ Ha).
Qed.

(** C6: for a non-GET request with a body and content type JSON, the
    headers get [Content-Type: application/json], and [Content-Length]
    should be the number of octets of the JSON text.  The code takes the
    [length] of the text instead: for the body [{msg: "é"}] the text
    written has 12 octets and the header says 11. *)
Example content_length_counts_code_units :
  exists c,
    Attempt.call
      (executor (Scenario.always (Scenario.answer 200 [] [])) 0
         (defaults
            (Scenario.post "http://example.com/api" "json" Scenario.accented)))
    = Some c
    /\ Js.get (Options.headers (Call.options c)) "Content-Type"
       = Some (Js.Str "application/json")
    /\ Call.postData c = Some (Node.json Scenario.accented)
    /\ Js.byteLength (Node.json Scenario.accented) = 12%nat
    /\ Js.get (Options.headers (Call.options c)) "Content-Length"
       = Some (Js.Num 11).
Proof. eexists. repeat split. Qed.

(** ** The timeout *)

Section Timeouts.

Context {platform : Platform}.

(** Only the redirect branch chains a follow-up, and it aborts. *)
Lemma run_followup_aborted (events : list Event) (st : Attempt.t) :
  (Attempt.followup st = true -> Attempt.aborted st = true) ->
  Attempt.followup (run events st) = true ->
  Attempt.aborted (run events st) = true.
Proof.
  revert st. induction events as [|e events IH]; intros st H; [exact H|].
  change (run (e :: events) st) with (run events (deliver st e)).
  apply IH. unfold deliver.
  destruct (Attempt.aborted st) eqn:Ea; [auto|].
  destruct (Attempt.followup st) eqn:Ef;
    [specialize (H eq_refl); discriminate H|].
  destruct e; simpl; try congruence.
  - destruct (fires (Attempt.armed st) ms); simpl; congruence.
  - destruct (Attempt.responded st); [congruence|].
    unfold on_response.
    repeat match goal with
      | |- context [if ?b then _ else _] => destruct b
      | |- context [match ?x with _ => _ end] => destruct x
      end; simpl; congruence.
  - unfold on_data. destruct (Attempt.collecting st); simpl; congruence.
  - unfold on_end. destruct (Attempt.collecting st); simpl; congruence.
Qed.

(** The socket gets the configured timeout: once the socket event came
    to a request that stays live, the timer holds
    [requestOptions.timeout]. *)
Lemma run_armed (pre : list Event) (st : Attempt.t) (t : Z) :
  RequestOptions.timeout (Attempt.requestOptions st) = t ->
  Attempt.armed st = Some t \/ In socket pre ->
  Attempt.aborted (run pre st) = false ->
  Attempt.armed (run pre st) = Some t.
Proof.
  revert st. induction pre as [|e pre IH]; intros st Ht H Hab.
  - destruct H as [H|[]]. exact H.
  - change (run (e :: pre) st) with (run pre (deliver st e)) in *.
    destruct (Attempt.aborted st) eqn:Ea.
    { assert (E : deliver st e = st) by (unfold deliver; now rewrite Ea).
      rewrite E, run_aborted in Hab by exact Ea. congruence. }
    apply IH; [| |exact Hab].
    + destruct (deliver_fields st e) as (_ & _ & _ & _ & H5 & _).
      cbv zeta in H5. now rewrite H5.
    + unfold deliver. rewrite Ea.
      destruct e; simpl;
        try (destruct H as [H|[H|H]]; [now left|discriminate H|now right]).
      * left. now rewrite Ht.
      * destruct H as [H|[H|H]]; [|discriminate H|now right].
        left. now destruct (fires (Attempt.armed st) ms).
      * destruct H as [H|[H|H]]; [|discriminate H|now right].
        left. destruct (Attempt.responded st); [exact H|].
        unfold on_response, redirect, reject_status.
        repeat match goal with
          | |- context [if ?b then _ else _] => destruct b
          | |- context [match ?x with _ => _ end] => destruct x
          end; exact H.
      * destruct H as [H|[H|H]]; [|discriminate H|now right].
        left. unfold on_data. now destruct (Attempt.collecting st).
      * destruct H as [H|[H|H]]; [|discriminate H|now right].
        left. unfold on_end. now destruct (Attempt.collecting st).
Qed.

Lemma begin_timeout (u : string) (ro : RequestOptions.t) :
  RequestOptions.timeout (Attempt.requestOptions (begin u ro))
  = RequestOptions.timeout ro.
Proof.
  unfold begin, resolve_call. now destruct (encode_body _ _).
Qed.

(** The timeout of the socket on a live request: when the socket has been
    idle for the time it was given, the request is aborted, what follows
    is dropped, and a pending promise is rejected with the text. *)
Lemma run_timeout (pre post : list Event) (st : Attempt.t) (ms : Z) :
  fires (Attempt.armed (run pre st)) ms = true ->
  Attempt.aborted (run pre st) = false ->
  run (pre ++ idle ms :: post) st = on_timeout (run pre st).
Proof.
  intros Harm Hab. rewrite run_app.
  change (run (idle ms :: post) ?s) with (run post (deliver s (idle ms))).
  assert (E : deliver (run pre st) (idle ms) = on_timeout (run pre st)).
  { unfold deliver. now rewrite Hab, Harm. }
  rewrite E. now apply run_aborted.
Qed.

(** A socket that is idle for less than its timeout, or whose timeout is
    0, emits nothing. *)
Lemma idle_within_the_timeout (st : Attempt.t) (t ms : Z) :
  Attempt.armed st = Some t -> ms < t \/ t = 0 ->
  deliver st (idle ms) = st.
Proof.
  intros Ha H. unfold deliver, fires. rewrite Ha.
  destruct (Attempt.aborted st); [reflexivity|].
  destruct (0 <? t) eqn:E0; [|reflexivity].
  destruct (t <=? ms) eqn:E1; [|reflexivity].
  apply Z.ltb_lt in E0. apply Z.leb_le in E1. lia.
Qed.

End Timeouts.

(** C7, as amended: when the socket of a request, once acquired, stays
    without activity for the configured timeout (a positive number of
    milliseconds, [requestOptions.timeout]) while the request is live, the
    request is aborted; and if the promise is still pending then, which a
    response with a status of 400 or more or a transport error before it
    prevents, the call rejects with the JSON text of
    [{code: "ERR", msg: "timeout"}], a string. *)
Theorem timeout_aborts_and_rejects_with_text {platform : Platform}
  (fuel : nat) (net : Network) (k : nat) (co : CallerOptions.t) (u : string)
  (pre post : list Event) (ms : Z) :
  CallerOptions.url co = Some u ->
  net k (fst (resolve_call u (defaults co)))
  = Emits (pre ++ idle ms :: post) ->
  In socket pre ->
  Attempt.aborted (run pre (begin u (defaults co))) = false ->
  0 < RequestOptions.timeout (defaults co) <= ms ->
  Attempt.aborted (executor net k (defaults co)) = true
  /\ (Attempt.promise (run pre (begin u (defaults co))) = Pending ->
      exists a,
        request (S fuel) net k co
        = Some (Run.make
                  (Rejected (Text (JSON_stringify (infoObj "timeout")))) [a])).
Proof.
  intros Hu Hn Hsock Hab Ht.
  pose proof (executor_emits net k (defaults co) u _ Hu Hn) as E.
  assert (Harm : fires (Attempt.armed (run pre (begin u (defaults co)))) ms
                 = true).
  { rewrite (run_armed pre (begin u (defaults co))
               (RequestOptions.timeout (defaults co)));
      [|apply begin_timeout|now right|exact Hab].
    unfold fires. apply andb_true_iff. split.
    - apply Z.ltb_lt. lia.
    - apply Z.leb_le. lia. }
  rewrite (run_timeout pre post _ ms Harm Hab) in E.
  split; [now rewrite E|].
  intros Hp. exists (executor net k (defaults co)).
  assert (Hf : Attempt.followup (executor net k (defaults co)) = false).
  { rewrite E. simpl.
    destruct (Attempt.followup (run pre (begin u (defaults co)))) eqn:Ef;
      [|reflexivity].
    rewrite (run_followup_aborted pre (begin u (defaults co))) in Hab;
      [discriminate|discriminate|exact Ef]. }
  rewrite (request_single fuel net k co Hf), E. simpl. now rewrite Hp.
Qed.

Lemma timeout_aborts_and_rejects_with_text_witness :
  0 < RequestOptions.timeout (defaults (Sample.patient "example.com" 2500))
    <= 3000
  /\ Attempt.aborted
       (executor (Scenario.always (Emits [socket; idle 3000])) 0
          (defaults (Sample.patient "example.com" 2500)))
     = true
  /\ exists a,
      request 1 (Scenario.always (Emits [socket; idle 3000])) 0
        (Sample.patient "example.com" 2500)
      = Some (Run.make
                (Rejected (Text (Node.json (infoObj "timeout")))) [a]).
Proof.
  assert (Ht : 0 < RequestOptions.timeout
                     (defaults (Sample.patient "example.com" 2500)) <= 3000)
    by (simpl; lia).
  split; [exact Ht|].
  destruct (timeout_aborts_and_rejects_with_text (platform := node) 0
              (Scenario.always (Emits [socket; idle 3000])) 0
              (Sample.patient "example.com" 2500)
              "example.com" [socket] [] 3000 eq_refl eq_refl
              (or_introl eq_refl) eq_refl Ht)
    as [H1 H2].
  split; [exact H1|]. apply H2. reflexivity.
Defined.

(** C7, as stated, fails: a socket that stays idle for the default
    timeout gets the promise rejected with a string, not with the object
    [{code: "ERR", msg: "timeout"}]. *)
Lemma timeout_not_an_object :
  exists run,
    request 1 (Scenario.always Scenario.stalled) 0
      (Scenario.get "http://example.com")
    = Some run
    /\ Run.outcome run <> Rejected (ErrorInfo (Some "ERR") (Some "timeout")).
Proof. eexists. split; [reflexivity|]. simpl. discriminate. Qed.

(** When the headers of a 404 came first, the timeout still aborts the
    request, and the call has been rejected for the status. *)
Example timeout_after_client_error :
  option_map
    (fun run => (Run.outcome run, List.map Attempt.aborted (Run.attempts run)))
    (request 1 (Scenario.always Scenario.stalled_body) 0
       (Scenario.get "http://example.com"))
  = Some (Rejected (ErrorInfo (Some "ERR") (Some "CLIENT ERROR: 404")), [true]).
Proof. reflexivity. Qed.

(** The configured timeout decides: the same 3000 ms of silence before
    the response end a call that allows 2500 ms and not one that allows
    the default 10000 ms, nor one whose timeout is 0. *)
Example timeout_is_the_configured_one :
  List.map
    (fun co =>
       option_map Run.outcome
         (request 1
            (Scenario.always
               (Emits [socket; idle 3000; response (Response.make 200 []);
                       data "late"; end_]))
            0 co))
    [Sample.patient "example.com" 2500; Scenario.get "example.com";
     Sample.patient "example.com" 0]
  = [Some (Rejected (Text (Node.json (infoObj "timeout"))));
     Some (Fulfilled (RequestResult.make 200 "{}" "late"));
     Some (Fulfilled (RequestResult.make 200 "{}" "late"))].
Proof. vm_compute. reflexivity. Qed.

(** ** Scheme and port *)

(** The reference parser reads the scheme of an http or https url. *)
Lemma parse_protocol (p rest : string) (proto : string) :
  Node.protocol (p ++ rest) = Some (proto, "//" ++ rest) ->
  Node.hostless (Some proto) = false ->
  Url.protocol (Node.parse (p ++ rest)) = Some proto.
Proof.
  intros Hp Hh. unfold Node.parse. rewrite Hp, Hh.
  replace (String.prefix "//" ("//" ++ rest)) with true
    by (now destruct rest).
  cbn [negb andb orb Node.present Node.drop2 append].
  destruct (Node.break "/?#" rest) as [authority tail].
  destruct (Node.split_port _) as [name digits]. reflexivity.
Qed.

Lemma node_parse_http (s : string) :
  Url.protocol (Node.parse ("http://" ++ s)) = Some "http:".
Proof. now apply (parse_protocol "http://" s "http:"). Qed.

Lemma node_parse_https (s : string) :
  Url.protocol (Node.parse ("https://" ++ s)) = Some "https:".
Proof. now apply (parse_protocol "https://" s "https:"). Qed.

Section Ports.

Context {platform : Platform}.

Hypothesis parse_http :
  forall s, Url.protocol (url_parse ("http://" ++ s)) = Some "http:".

Hypothesis parse_https :
  forall s, Url.protocol (url_parse ("https://" ++ s)) = Some "https:".

(** The call for a url that begins with [http://]. *)
Lemma call_over_http (s : string) (ro : RequestOptions.t) :
  let c := fst (resolve_call ("http://" ++ s) ro) in
  Call.lib c = http
  /\ Options.hostname (Call.options c)
     = Url.hostname (url_parse ("http://" ++ s))
  /\ Options.port (Call.options c)
     = match Url.port (url_parse ("http://" ++ s)) with
       | None => PortNumber 80
       | Some p => PortText p
       end.
Proof.
  destruct (resolve_call_target ("http://" ++ s) ro) as (H1 & H2 & H3).
  rewrite backfill_with_scheme in H1, H2, H3
    by (now rewrite prefix_app).
  cbv zeta. rewrite H1, H2, H3. split; [reflexivity|]. split; [reflexivity|].
  unfold resolve_port. rewrite parse_http.
  now destruct (Url.port (url_parse ("http://" ++ s))).
Qed.

(** The call for a url that begins with [https://]. *)
Lemma call_over_https (s : string) (ro : RequestOptions.t) :
  let c := fst (resolve_call ("https://" ++ s) ro) in
  Call.lib c = https
  /\ Options.port (Call.options c)
     = match Url.port (url_parse ("https://" ++ s)) with
       | None => PortNumber 443
       | Some p => PortText p
       end.
Proof.
  destruct (resolve_call_target ("https://" ++ s) ro) as (H1 & _ & H3).
  rewrite backfill_with_scheme in H1, H3
    by (rewrite prefix_app; apply orb_true_r).
  cbv zeta. rewrite H1, H3, startsWith_https. split; [reflexivity|].
  unfold resolve_port. rewrite parse_https.
  now destruct (Url.port (url_parse ("https://" ++ s))).
Qed.

(** The call for a url without scheme is the call for [http://] and the
    url. *)
Lemma call_without_scheme (u : string) (ro : RequestOptions.t) :
  String.prefix "http://" u = false -> String.prefix "https://" u = false ->
  fst (resolve_call u ro) = fst (resolve_call ("http://" ++ u) ro).
Proof.
  intros H1 H2. unfold resolve_call.
  rewrite (backfill_without_scheme u H1 H2).
  rewrite (backfill_with_scheme ("http://" ++ u)) by (now rewrite prefix_app).
  reflexivity.
Qed.

End Ports.

(** C8: for every configuration whose url lacks an [http://] or
    [https://] prefix, normalization puts [http://] in front and the call
    goes through the http module to port 80, unless the url carries a
    port; an http url without port resolves to port 80 and an https url
    without port to port 443.  The parser is any that reads the scheme of
    an http or https url. *)
Theorem scheme_backfill_and_default_ports {platform : Platform}
  (net : Network) (k : nat) (co : CallerOptions.t) (u : string) :
  (forall s, Url.protocol (url_parse ("http://" ++ s)) = Some "http:") ->
  (forall s, Url.protocol (url_parse ("https://" ++ s)) = Some "https:") ->
  CallerOptions.url co = Some u ->
  exists c,
    Attempt.call (executor net k (defaults co)) = Some c
    /\ (String.prefix "http://" u = false ->
        String.prefix "https://" u = false ->
        backfill u = "http://" ++ u
        /\ Call.lib c = http
        /\ Options.hostname (Call.options c)
           = Url.hostname (url_parse ("http://" ++ u))
        /\ Options.port (Call.options c)
           = match Url.port (url_parse ("http://" ++ u)) with
             | None => PortNumber 80
             | Some p => PortText p
             end)
    /\ (String.prefix "http://" u = true ->
        Url.port (url_parse u) = None ->
        Call.lib c = http /\ Options.port (Call.options c) = PortNumber 80)
    /\ (String.prefix "https://" u = true ->
        Url.port (url_parse u) = None ->
        Call.lib c = https /\ Options.port (Call.options c) = PortNumber 443).
Proof.
  intros Hhttp Hhttps Hu. exists (fst (resolve_call u (defaults co))).
  split; [now apply executor_call|]. split; [|split].
  - intros H1 H2. split; [now apply backfill_without_scheme|].
    rewrite (call_without_scheme u (defaults co) H1 H2).
    apply (call_over_http Hhttp).
  - intros H Hp. destruct (prefix_split _ _ H) as [s ->].
    destruct (call_over_http Hhttp s (defaults co)) as (H1 & _ & H3).
    rewrite Hp in H3. now split.
  - intros H Hp. destruct (prefix_split _ _ H) as [s ->].
    destruct (call_over_https Hhttps s (defaults co)) as (H1 & H3).
    rewrite Hp in H3. now split.
Qed.

Lemma scheme_backfill_and_default_ports_witness :
  exists c,
    Attempt.call
      (executor (Scenario.always (Scenario.answer 200 [] [])) 0
         (defaults (Scenario.get "example.com/x")))
    = Some c
    /\ backfill "example.com/x" = "http://example.com/x"
    /\ Call.lib c = http
    /\ Options.hostname (Call.options c) = Some "example.com"
    /\ Options.port (Call.options c) = PortNumber 80.
Proof.
  destruct (scheme_backfill_and_default_ports (platform := node)
              (Scenario.always (Scenario.answer 200 [] [])) 0
              (Scenario.get "example.com/x") "example.com/x"
              node_parse_http node_parse_https eq_refl)
    as (c & Hc & H & _).
  exists c. split; [exact Hc|]. apply (H eq_refl eq_refl).
Defined.

Example ports_by_scheme :
  List.map
    (fun u =>
       option_map (fun c => (Call.lib c, Options.port (Call.options c)))
         (Attempt.call
            (executor (Scenario.always (Scenario.answer 200 [] [])) 0
               (defaults (Scenario.get u)))))
    ["http://example.com/a"; "https://example.com/a"; "example.com:8080/a";
     "https://example.com:8443"]
  = [Some (http, PortNumber 80); Some (https, PortNumber 443);
     Some (http, PortText "8080"); Some (https, PortText "8443")].
Proof. reflexivity. Qed.

(** ** Relative redirects *)

(** C10, as amended: when a request to an https url gets a 3xx response
    with a relative location (the parser finds no host name in it) while
    [followRedirect] is true and [maxRedirects] is positive, the new url is
    the bare host name joined to the location.  When that text has no
    [http://] or [https://] prefix, normalization puts [http://] in front
    on the follow-up attempt, which goes through the http module; its port
    is 80 when the parser finds no port in the new url, and the port found
    otherwise. *)
Theorem relative_redirect_leaves_https {platform : Platform}
  (net : Network) (k : nat) (co : CallerOptions.t) (u : string)
  (r : Response.t) (rest : list Event) (location : string) :
  (forall s, Url.protocol (url_parse ("http://" ++ s)) = Some "http:") ->
  CallerOptions.url co = Some u ->
  String.prefix "https://" u = true ->
  net k (fst (resolve_call u (defaults co)))
  = Emits (socket :: response r :: rest) ->
  300 <= Response.statusCode r < 400 ->
  Response.location r = Some location ->
  Js.truthy (Some location) = true ->
  Js.truthy (Url.hostname (url_parse location)) = false ->
  RequestOptions.followRedirect (defaults co) = true ->
  0 < RequestOptions.maxRedirects (defaults co) ->
  let a := executor net k (defaults co) in
  let target := Js.add (Url.hostname (url_parse u)) location in
  Attempt.followup a = true
  /\ RequestOptions.url (Attempt.requestOptions a) = Some target
  /\ (String.prefix "http://" target = false ->
      String.prefix "https://" target = false ->
      exists c,
        Attempt.call
          (executor net (S k) (defaults (passed (Attempt.requestOptions a))))
        = Some c
        /\ backfill target = "http://" ++ target
        /\ Call.lib c = http
        /\ Options.hostname (Call.options c)
           = Url.hostname (url_parse ("http://" ++ target))
        /\ Options.port (Call.options c)
           = match Url.port (url_parse ("http://" ++ target)) with
             | None => PortNumber 80
             | Some p => PortText p
             end).
Proof.
  intros Hhttp Hu Hpre Hn Hs Hloc Hne Hrel Hf Hm a target.
  assert (Hr : redirection r = Some location).
  { apply redirection_some. repeat split; try lia; try exact Hloc.
    intros ->. discriminate Hne. }
  pose proof (followed net k (defaults co) u r rest location Hu Hn Hr Hf Hm)
    as E.
  fold a in E.
  assert (Hb : backfill u = u).
  { apply backfill_with_scheme. rewrite Hpre. apply orb_true_r. }
  assert (Ht : RequestOptions.url (Attempt.requestOptions a) = Some target).
  { rewrite E. unfold redirect. rewrite Hrel. cbn.
    unfold current_hostname.
    destruct (resolve_call_options u (defaults co)) as (-> & _).
    now rewrite Hb. }
  split; [now rewrite E|]. split; [exact Ht|].
  intros H1 H2.
  set (ro := defaults (passed (Attempt.requestOptions a))).
  assert (Hro : RequestOptions.url ro = Some target).
  { unfold ro. now rewrite (proj1 (defaults_passed _)). }
  exists (fst (resolve_call target ro)).
  split; [now apply executor_call|].
  split; [now apply backfill_without_scheme|].
  rewrite (call_without_scheme target ro H1 H2).
  apply (call_over_http Hhttp).
Qed.

Lemma relative_redirect_leaves_https_witness :
  String.prefix "https://" "https://example.com/a" = true
  /\ Js.truthy (Url.hostname (Node.parse "/b")) = false
  /\ exists c,
      Attempt.call
        (executor
           (Scenario.hops 1 "/b" (Scenario.answer 200 [] [])) 1
           (defaults
              (passed
                 (Attempt.requestOptions
                    (executor
                       (Scenario.hops 1 "/b" (Scenario.answer 200 [] [])) 0
                       (defaults (Scenario.get "https://example.com/a")))))))
      = Some c
      /\ backfill "example.com/b" = "http://example.com/b"
      /\ Call.lib c = http
      /\ Options.hostname (Call.options c) = Some "example.com"
      /\ Options.port (Call.options c) = PortNumber 80.
Proof.
  split; [reflexivity|]. split; [reflexivity|].
  assert (H : 0 < RequestOptions.maxRedirects
                    (defaults (Scenario.get "https://example.com/a")))
    by (simpl; lia).
  assert (Hs : 300 <= 302 < 400) by lia.
  assert (Hne : Js.truthy (Some "/b") = true) by reflexivity.
  destruct (relative_redirect_leaves_https (platform := node)
              (Scenario.hops 1 "/b" (Scenario.answer 200 [] [])) 0
              (Scenario.get "https://example.com/a")
              "https://example.com/a"
              (Response.make 302 [("location", "/b")]) [end_] "/b"
              node_parse_http eq_refl eq_refl eq_refl Hs eq_refl Hne
              eq_refl eq_refl H)
    as (_ & _ & H3).
  apply (H3 eq_refl eq_refl).
Defined.

(** C10, as stated, fails: the location [:8080/x] has no host name for the
    parser, and the follow-up of the https request goes to port 8080. *)
Lemma relative_redirect_to_another_port :
  exists run c0 c1,
    request 2 (Scenario.hops 1 ":8080/x" (Scenario.answer 200 [] [])) 0
      (Scenario.get "https://example.com/a")
    = Some run
    /\ calls (Run.attempts run) = [c0; c1]
    /\ Call.lib c0 = https
    /\ Js.truthy (Url.hostname (Node.parse ":8080/x")) = false
    /\ Call.lib c1 = http
    /\ Options.hostname (Call.options c1) = Some "example.com"
    /\ Options.port (Call.options c1) = PortText "8080"
    /\ Options.port (Call.options c1) <> PortNumber 80.
Proof.
  do 3 eexists. split; [vm_compute; reflexivity|].
  split; [vm_compute; reflexivity|].
  repeat split; try (vm_compute; reflexivity). vm_compute. discriminate.
Qed.

(** * Further properties of [request] *)

(** ** The defaults *)

Lemma upper_idempotent (c : ascii) : Js.upper (Js.upper c) = Js.upper c.
Proof. destruct c as [[] [] [] [] [] [] [] []]; reflexivity. Qed.

Lemma upper_ascii (c : ascii) :
  (nat_of_ascii c <? 128)%nat = true ->
  (nat_of_ascii (Js.upper c) <? 128)%nat = true.
Proof. destruct c as [[] [] [] [] [] [] [] []]; vm_compute; auto. Qed.

Lemma asciiUpperCase_idempotent (s : string) :
  Js.asciiUpperCase (Js.asciiUpperCase s) = Js.asciiUpperCase s.
Proof.
  induction s as [|c s IH]; [reflexivity|].
  unfold Js.asciiUpperCase in *. simpl. now rewrite upper_idempotent, IH.
Qed.

Lemma asciiUpperCase_isAscii (s : string) :
  Js.isAscii s = true -> Js.isAscii (Js.asciiUpperCase s) = true.
Proof.
  induction s as [|c s IH]; intros H; [reflexivity|].
  simpl in H. apply andb_true_iff in H. destruct H as [Hc Hs].
  unfold Js.asciiUpperCase in *. simpl.
  now rewrite (upper_ascii c Hc), (IH Hs).
Qed.

Section UpperCase.

Context {platform : Platform}.

(** What [toUpperCase] does on ASCII text: it makes the letters a-z
    capital and keeps the rest. *)
Hypothesis upper_case_of_ascii :
  forall s, Js.isAscii s = true -> toUpperCase s = Js.asciiUpperCase s.

(** A second upper-casing of ASCII text changes nothing. *)
Lemma toUpperCase_twice (s : string) :
  Js.isAscii s = true -> toUpperCase (toUpperCase s) = toUpperCase s.
Proof.
  intros H. rewrite (upper_case_of_ascii s H).
  rewrite (upper_case_of_ascii _ (asciiUpperCase_isAscii s H)).
  apply asciiUpperCase_idempotent.
Qed.

End UpperCase.

(** X1: for a method and a content type written in ASCII, the defaults of
    lines 53-60 are idempotent.  The object that went through them once,
    handed to [request] again as the redirect branch does, comes out the
    same: nothing is upper-cased twice into something else and no default
    replaces a value.  [toUpperCase] is any function that, on ASCII text,
    makes the letters a-z capital. *)
Theorem defaults_idempotent {platform : Platform} (co : CallerOptions.t) :
  (forall s, Js.isAscii s = true -> toUpperCase s = Js.asciiUpperCase s) ->
  (forall m, CallerOptions.method co = Some m -> Js.isAscii m = true) ->
  (forall c, CallerOptions.contentType co = Some c -> Js.isAscii c = true) ->
  defaults (passed (defaults co)) = defaults co.
Proof.
  intros Hup Hm Hc.
  destruct co as [u m b c f n t h]. unfold defaults, passed. simpl in *.
  f_equal.
  - destruct m as [m|]; [apply (toUpperCase_twice Hup), Hm; reflexivity|].
    now rewrite (Hup "GET" eq_refl).
  - destruct c as [c|]; [apply (toUpperCase_twice Hup), Hc; reflexivity|].
    now rewrite (Hup "FORM" eq_refl).
Qed.

Lemma defaults_idempotent_witness :
  defaults
    (passed
       (defaults
          (Scenario.post "example.com/api" "json" [("a", Js.Num 1)])))
  = defaults (Scenario.post "example.com/api" "json" [("a", Js.Num 1)]).
Proof.
  apply (defaults_idempotent (platform := node)
           (Scenario.post "example.com/api" "json" [("a", Js.Num 1)])).
  - intros s _. reflexivity.
  - intros m [= <-]. reflexivity.
  - intros c [= <-]. reflexivity.
Defined.

(** ** The url after the backfill *)

(** X2: after lines 74-76 the url always begins with [http://] or
    [https://], so the search finds the scheme at index 0 and running the
    lines again, as every follow-up attempt does, adds nothing. *)
Theorem backfilled_url_has_a_scheme (u : string) :
  search_scheme (backfill u) = 0
  /\ backfill (backfill u) = backfill u.
Proof.
  assert (H : String.prefix "http://" (backfill u)
              || String.prefix "https://" (backfill u) = true).
  { destruct (String.prefix "http://" u || String.prefix "https://" u) eqn:E.
    - now rewrite (backfill_with_scheme u E).
    - apply orb_false_elim in E. destruct E as [E1 E2].
      rewrite (backfill_without_scheme u E1 E2). now rewrite prefix_app. }
  split.
  - unfold search_scheme. now rewrite H.
  - now apply backfill_with_scheme.
Qed.

Section Selection.

Context {platform : Platform}.

(** X3: the https module is selected exactly for the urls that begin with
    [https://].  Line 130 only looks for the letters [https], but after the
    backfill a url that begins with them begins with [https://]: a host
    such as [httpsfoo.com] without scheme is called over http. *)
Theorem https_module_iff_https_scheme (u : string) (ro : RequestOptions.t) :
  Call.lib (fst (resolve_call u ro)) = https
  <-> String.prefix "https://" u = true.
Proof.
  destruct (resolve_call_target u ro) as (H & _). cbv zeta in H. rewrite H.
  destruct (String.prefix "https://" u) eqn:E2.
  - destruct (prefix_split _ _ E2) as [s ->].
    rewrite backfill_with_scheme
      by (rewrite prefix_app; apply orb_true_r).
    rewrite startsWith_https. now split.
  - destruct (String.prefix "http://" u) eqn:E1.
    + destruct (prefix_split _ _ E1) as [s ->].
      rewrite backfill_with_scheme by (now rewrite prefix_app).
      rewrite startsWith_http. split; discriminate.
    + rewrite (backfill_without_scheme u E1 E2), startsWith_http.
      split; discriminate.
Qed.

End Selection.

Example https_letters_without_scheme :
  option_map Call.lib
    (Attempt.call
       (executor (Scenario.always (Scenario.answer 200 [] [])) 0
          (defaults (Scenario.get "httpsfoo.com/x"))))
  = Some http.
Proof. reflexivity. Qed.

(** ** Body and headers of the call *)

Section Encoding.

Context {platform : Platform}.

(** The fields of the shared object when an attempt is over, against the
    object it began with. *)
Lemma executor_fields (net : Network) (k : nat) (ro : RequestOptions.t) :
  let ro' := Attempt.requestOptions (executor net k ro) in
  RequestOptions.method ro' = RequestOptions.method ro
  /\ RequestOptions.body ro' = RequestOptions.body ro
  /\ RequestOptions.contentType ro' = RequestOptions.contentType ro
  /\ RequestOptions.followRedirect ro' = RequestOptions.followRedirect ro
  /\ RequestOptions.timeout ro' = RequestOptions.timeout ro.
Proof.
  unfold executor. destruct (RequestOptions.url ro) as [u|];
    [|now repeat split].
  assert (H : let r := snd (resolve_call u ro) in
              RequestOptions.method r = RequestOptions.method ro
              /\ RequestOptions.body r = RequestOptions.body ro
              /\ RequestOptions.contentType r = RequestOptions.contentType ro
              /\ RequestOptions.followRedirect r
                 = RequestOptions.followRedirect ro
              /\ RequestOptions.timeout r = RequestOptions.timeout ro).
  { unfold resolve_call. destruct (encode_body _ _). now repeat split. }
  destruct (resolve_call u ro) as [c r]. cbv zeta in H. simpl in H.
  destruct H as (H1 & H2 & H3 & H4 & H5).
  destruct (net k c) as [e|events]; [now repeat split|].
  destruct (run_fields events (start ro (Some c) Pending r))
    as (G1 & G2 & G3 & G4 & G5 & _).
  cbv zeta in *. simpl in *. repeat split; congruence.
Qed.

(** What lines 102-127 make of the payload. *)
Lemma resolve_call_postData (u : string) (ro : RequestOptions.t) :
  Call.postData (fst (resolve_call u ro))
  = match RequestOptions.body ro with
    | Some b =>
        if String.eqb (RequestOptions.method ro) "GET" then None
        else Some (JSON_stringify b)
    | None => None
    end.
Proof.
  unfold resolve_call, encode_body.
  destruct (RequestOptions.body ro); [|reflexivity].
  now destruct (String.eqb (RequestOptions.method ro) "GET").
Qed.

Lemma resolve_call_method (u : string) (ro : RequestOptions.t) :
  Options.method (Call.options (fst (resolve_call u ro)))
  = RequestOptions.method ro.
Proof.
  unfold resolve_call, encode_body.
  destruct (RequestOptions.body ro); [|reflexivity].
  now destruct (String.eqb (RequestOptions.method ro) "GET").
Qed.

(** The headers of the call are the headers of the shared object. *)
Lemma resolve_call_shares_headers (u : string) (ro : RequestOptions.t) :
  RequestOptions.headers (snd (resolve_call u ro))
  = Options.headers (Call.options (fst (resolve_call u ro))).
Proof. unfold resolve_call. now destruct (encode_body _ _). Qed.

End Encoding.

(** X4: a body sent with GET (the default method, in any case of the
    letters) goes to the path as a query string after a question mark;
    nothing is written as payload and the headers are the caller's. *)
Theorem get_body_goes_to_the_query {platform : Platform} (net : Network)
  (k : nat) (co : CallerOptions.t) (u : string) (b : Js.Object) :
  CallerOptions.url co = Some u ->
  CallerOptions.body co = Some b ->
  RequestOptions.method (defaults co) = "GET" ->
  exists c,
    Attempt.call (executor net k (defaults co)) = Some c
    /\ Options.path (Call.options c)
       = Some (Js.add (Url.path (url_parse (backfill u)))
                 ("?" ++ querystring_stringify b))
    /\ Call.postData c = None
    /\ Options.headers (Call.options c) = RequestOptions.headers (defaults co).
Proof.
  intros Hu Hb Hm. exists (fst (resolve_call u (defaults co))).
  split; [now apply executor_call|].
  unfold resolve_call, encode_body.
  change (RequestOptions.body (defaults co)) with (CallerOptions.body co).
  rewrite Hb, Hm. simpl. auto.
Qed.

Lemma get_body_goes_to_the_query_witness :
  exists c,
    Attempt.call
      (executor (Scenario.always (Scenario.answer 200 [] [])) 0
         (defaults
            (Sample.sending "example.com/search" "get"
               (Some [("q", Js.Str "a b"); ("page", Js.Num 2)])
               [("Accept", Js.Str "text/html")])))
    = Some c
    /\ Options.path (Call.options c) = Some "/search?q=a%20b&page=2"
    /\ Call.postData c = None
    /\ Options.headers (Call.options c) = [("Accept", Js.Str "text/html")].
Proof.
  apply (get_body_goes_to_the_query (platform := node)
           (Scenario.always (Scenario.answer 200 [] [])) 0
           (Sample.sending "example.com/search" "get"
              (Some [("q", Js.Str "a b"); ("page", Js.Num 2)])
              [("Accept", Js.Str "text/html")])
           "example.com/search"
           [("q", Js.Str "a b"); ("page", Js.Num 2)]
           eq_refl eq_refl eq_refl).
Defined.

(** X5: the headers of the caller reach the transport: every header other
    than [Content-Type] and [Content-Length] has in the call the value the
    caller gave it, and without a body the headers and the path are
    exactly the caller's and the parser's and nothing is written. *)
Theorem caller_headers_are_sent {platform : Platform} (net : Network)
  (k : nat) (co : CallerOptions.t) (u : string) :
  CallerOptions.url co = Some u ->
  exists c,
    Attempt.call (executor net k (defaults co)) = Some c
    /\ (forall name,
          name <> "Content-Type" -> name <> "Content-Length" ->
          Js.get (Options.headers (Call.options c)) name
          = Js.get (RequestOptions.headers (defaults co)) name)
    /\ (CallerOptions.body co = None ->
        Call.postData c = None
        /\ Options.headers (Call.options c)
           = RequestOptions.headers (defaults co)
        /\ Options.path (Call.options c) = Url.path (url_parse (backfill u))).
Proof.
  intros Hu. exists (fst (resolve_call u (defaults co))).
  split; [now apply executor_call|]. split.
  - intros name H1 H2. unfold resolve_call, encode_body.
    destruct (RequestOptions.body (defaults co)); [|reflexivity].
    destruct (String.eqb (RequestOptions.method (defaults co)) "GET");
      [reflexivity|].
    simpl. unfold content_headers.
    rewrite get_set_other by congruence. now rewrite get_set_other by congruence.
  - intros Hb. unfold resolve_call, encode_body.
    change (RequestOptions.body (defaults co)) with (CallerOptions.body co).
    rewrite Hb. simpl. auto.
Qed.

Lemma caller_headers_are_sent_witness :
  exists c,
    Attempt.call
      (executor (Scenario.always (Scenario.answer 200 [] [])) 0
         (defaults
            (Sample.sending "example.com/api" "put"
               (Some [("a", Js.Num 1)])
               [("Authorization", Js.Str "Bearer t");
                ("Content-Type", Js.Str "text/plain")])))
    = Some c
    /\ Js.get (Options.headers (Call.options c)) "Authorization"
       = Some (Js.Str "Bearer t").
Proof.
  destruct (caller_headers_are_sent (platform := node)
              (Scenario.always (Scenario.answer 200 [] [])) 0
              (Sample.sending "example.com/api" "put"
                 (Some [("a", Js.Num 1)])
                 [("Authorization", Js.Str "Bearer t");
                  ("Content-Type", Js.Str "text/plain")])
              "example.com/api" eq_refl)
    as (c & Hc & H & _).
  exists c. split; [exact Hc|].
  rewrite (H "Authorization"); [reflexivity|discriminate|discriminate].
Defined.

(** X6: the content headers are written into the caller's own headers
    object: when an attempt with a body and a method other than GET is
    over, whatever the transport did, [requestOptions.headers] holds the
    [Content-Type] and the [Content-Length] of the call, a [Content-Type]
    of the caller being replaced. *)
Theorem content_headers_stay_in_the_caller_object {platform : Platform}
  (net : Network) (k : nat) (co : CallerOptions.t) (u : string)
  (b : Js.Object) :
  CallerOptions.url co = Some u ->
  CallerOptions.body co = Some b ->
  RequestOptions.method (defaults co) <> "GET" ->
  let after :=
    RequestOptions.headers
      (Attempt.requestOptions (executor net k (defaults co))) in
  Js.get after "Content-Type"
  = Some (Js.Str
            (if String.eqb (RequestOptions.contentType (defaults co)) "JSON"
             then "application/json"
             else "application/x-www-form-urlencoded"))
  /\ Js.get after "Content-Length"
     = Some (Js.Num (Z.of_nat (Js.length (JSON_stringify b)))).
Proof.
  intros Hu Hb Hm after.
  assert (E : after
              = Options.headers
                  (Call.options (fst (resolve_call u (defaults co))))).
  { assert (Hu' : RequestOptions.url (defaults co) = Some u) by exact Hu.
    unfold after, executor. rewrite Hu'.
    pose proof (resolve_call_shares_headers u (defaults co)) as Hs.
    destruct (resolve_call u (defaults co)) as [c r]. simpl in Hs.
    destruct (net k c) as [e|events]; [exact Hs|].
    destruct (run_fields events (start (defaults co) (Some c) Pending r))
      as (_ & _ & _ & _ & _ & H).
    cbv zeta in H. now rewrite H. }
  rewrite E.
  destruct (resolve_call_payload u (defaults co) b Hb Hm) as (_ & H1 & H2).
  now split.
Qed.

Lemma content_headers_stay_in_the_caller_object_witness :
  Js.get
    (RequestOptions.headers
       (Attempt.requestOptions
          (executor (Scenario.always Sample.refused) 0
             (defaults
                (Sample.sending "example.com/api" "put"
                   (Some [("a", Js.Num 1)])
                   [("Content-Type", Js.Str "text/plain")])))))
    "Content-Type"
  = Some (Js.Str "application/x-www-form-urlencoded").
Proof.
  assert (Hm : RequestOptions.method
                 (defaults
                    (Sample.sending "example.com/api" "put"
                       (Some [("a", Js.Num 1)])
                       [("Content-Type", Js.Str "text/plain")]))
               <> "GET") by (simpl; discriminate).
  destruct (content_headers_stay_in_the_caller_object (platform := node)
              (Scenario.always Sample.refused) 0
              (Sample.sending "example.com/api" "put"
                 (Some [("a", Js.Num 1)])
                 [("Content-Type", Js.Str "text/plain")])
              "example.com/api" [("a", Js.Num 1)] eq_refl eq_refl Hm)
    as [H _].
  exact H.
Defined.

(** ** How a call ends *)

(** X7: a response with a status below 300 whose stream ends resolves
    the call with that status, the serialized headers and the chunks
    joined in the order of arrival, in one attempt, whatever comes after
    the end. *)
Theorem success_resolves_with_joined_body {platform : Platform}
  (fuel : nat) (net : Network) (k : nat) (co : CallerOptions.t) (u : string)
  (r : Response.t) (chunks : list string) (rest : list Event) :
  CallerOptions.url co = Some u ->
  net k (fst (resolve_call u (defaults co)))
  = Emits (socket :: response r :: List.map data chunks ++ end_ :: rest) ->
  Response.statusCode r < 300 ->
  exists a,
    request (S fuel) net k co
    = Some (Run.make
              (Fulfilled
                 (RequestResult.make (Response.statusCode r)
                    (JSON_stringify (Response.headersObject r))
                    (Js.join chunks))) [a]).
Proof.
  intros Hu Hn Hs. exists (executor net k (defaults co)).
  destruct (collected_resolves net k (defaults co) u r chunks rest Hu Hn)
    as (Hp & Hf & _); [lia| |].
  - left. unfold redirection.
    destruct (300 <=? Response.statusCode r) eqn:E; [lia|reflexivity].
  - now rewrite (request_single fuel net k co Hf), Hp.
Qed.

Lemma success_resolves_with_joined_body_witness :
  exists a,
    request 1
      (Scenario.always
         (Scenario.answer 200 [("content-type", "text/plain")] ["ab"; "cd"]))
      0 (Scenario.get "example.com")
    = Some (Run.make
              (Fulfilled
                 (RequestResult.make 200
                    (Node.json [("content-type", Js.Str "text/plain")])
                    "abcd")) [a]).
Proof.
  apply (success_resolves_with_joined_body (platform := node) 0
           (Scenario.always
              (Scenario.answer 200 [("content-type", "text/plain")]
                 ["ab"; "cd"]))
           0 (Scenario.get "example.com") "example.com"
           (Response.make 200 [("content-type", "text/plain")])
           ["ab"; "cd"] [] eq_refl eq_refl).
  simpl. lia.
Defined.

Section Endings.

Context {platform : Platform}.

(** Only the response callback chains a follow-up. *)
Lemma run_without_response (events : list Event) (st : Attempt.t) :
  forallb (fun e => negb (is_response e)) events = true ->
  Attempt.followup (run events st) = Attempt.followup st.
Proof.
  revert st. induction events as [|e events IH]; intros st H; [reflexivity|].
  simpl in H. apply andb_true_iff in H. destruct H as [He H].
  change (run (e :: events) st) with (run events (deliver st e)).
  rewrite (IH _ H). unfold deliver.
  destruct (Attempt.aborted st); [reflexivity|].
  destruct e; try discriminate He; simpl; try reflexivity.
  - now destruct (fires (Attempt.armed st) ms).
  - unfold on_data. now destruct (Attempt.collecting st).
  - unfold on_end. now destruct (Attempt.collecting st).
Qed.

Lemma reject_fulfilled (p : Promise) (e : Reason) (v : RequestResult.t) :
  reject p e = Fulfilled v -> p = Fulfilled v.
Proof. now destruct p. Qed.

Lemma reject_settles (p : Promise) (e : Reason) : reject p e <> Pending.
Proof. now destruct p. Qed.

Lemma deliver_sound (st : Attempt.t) (e : Event) :
  sound st -> sound (deliver st e).
Proof.
  intros [H1 H2]. unfold deliver.
  destruct (Attempt.aborted st); [now split|].
  destruct e.
  - now split.
  - destruct (fires (Attempt.armed st) ms); [|now split].
    unfold on_timeout. split; simpl.
    + intros v Hv. apply reject_fulfilled in Hv. now apply H1.
    + intros r Hr Hs. apply reject_settles.
  - unfold on_error. split; simpl.
    + intros v Hv. apply reject_fulfilled in Hv. now apply H1.
    + intros r Hr Hs. apply reject_settles.
  - destruct (Attempt.responded st); [now split|].
    unfold on_response. simpl.
    destruct (redirection r) as [l|] eqn:Er.
    + apply redirection_some in Er. destruct Er as (Es & _).
      destruct (RequestOptions.followRedirect (Attempt.requestOptions st)
                && (0 <? RequestOptions.maxRedirects (Attempt.requestOptions st))).
      * unfold redirect. split; simpl.
        -- intros v Hv. apply H1. now destruct (Attempt.promise st).
        -- intros r' Hr Hs. destruct (Attempt.promise st); discriminate.
      * split; simpl; [exact H1|]. intros r' [= <-] Hs. lia.
    + destruct ((400 <=? Response.statusCode r)
                && (Response.statusCode r <? 500)) eqn:E4;
        [|destruct (500 <=? Response.statusCode r) eqn:E5].
      * unfold reject_status. split; simpl.
        -- intros v Hv. apply reject_fulfilled in Hv. now apply H1.
        -- intros r' _ _. apply reject_settles.
      * unfold reject_status. split; simpl.
        -- intros v Hv. apply reject_fulfilled in Hv. now apply H1.
        -- intros r' _ _. apply reject_settles.
      * split; simpl; [exact H1|]. intros r' [= <-] Hs.
        apply andb_false_iff in E4. apply Z.leb_gt in E5.
        destruct E4 as [E4|E4];
          [apply Z.leb_gt in E4|apply Z.ltb_ge in E4]; lia.
  - unfold on_data. destruct (Attempt.collecting st) eqn:Ec;
      (split; simpl; [exact H1|]; intros r' Hr'; rewrite Ec in Hr';
       apply H2; exact Hr').
  - unfold on_end. destruct (Attempt.collecting st) as [r|] eqn:Ec;
      [|split; [exact H1|]; intros r' Hr'; rewrite Ec in Hr';
        discriminate Hr'].
    split; simpl.
    + intros v Hv. destruct (Attempt.promise st) eqn:Ep; simpl in Hv;
        try discriminate; [|now apply H1].
      injection Hv as <-. simpl.
      destruct (Z.lt_ge_cases (Response.statusCode r) 400) as [Hl|Hg];
        [exact Hl|].
      now elim (H2 r eq_refl Hg).
    + intros r' Hr Hs. destruct (Attempt.promise st); simpl; discriminate.
Qed.

Lemma executor_sound (net : Network) (k : nat) (ro : RequestOptions.t) :
  sound (executor net k ro).
Proof.
  unfold executor. destruct (RequestOptions.url ro) as [u|].
  - destruct (resolve_call u ro) as [c r].
    destruct (net k c) as [e|events].
    + split; simpl; discriminate.
    + assert (H : sound (start ro (Some c) Pending r))
        by (split; simpl; discriminate).
      revert H. generalize (start ro (Some c) Pending r).
      induction events as [|e events IH]; intros st H; [exact H|].
      change (run (e :: events) st) with (run events (deliver st e)).
      apply IH. now apply deliver_sound.
  - split; simpl; discriminate.
Qed.

End Endings.

(** X8: a call never resolves with an error status.  Whatever the
    transport emits and however many redirects are followed, a promise
    that is fulfilled holds a status below 400: a response with a status
    of 400 or more has rejected the promise before its body ends. *)
Theorem never_resolves_with_an_error_status {platform : Platform}
  (net : Network) (fuel : nat) :
  forall (k : nat) (co : CallerOptions.t) (run : Run.t)
         (v : RequestResult.t),
  request fuel net k co = Some run ->
  Run.outcome run = Fulfilled v ->
  RequestResult.status v < 400.
Proof.
  induction fuel as [|fuel IH]; intros k co run v Hr Hv; [discriminate|].
  simpl in Hr.
  destruct (executor_sound net k (defaults co)) as [H1 _].
  destruct (Attempt.followup (executor net k (defaults co))).
  - destruct (request fuel net (S k) _) as [inner|] eqn:Ei; [|discriminate].
    injection Hr as <-. simpl in Hv.
    destruct (Attempt.promise (executor net k (defaults co))) eqn:Ep;
      simpl in Hv; try discriminate.
    + apply H1. exact Hv.
    + exact (IH _ _ _ _ Ei Hv).
  - injection Hr as <-. simpl in Hv. now apply H1.
Qed.

Example redirect_then_no_content :
  exists run v,
    request 3
      (Scenario.hops 1 "/next" (Scenario.answer 204 [] [])) 0
      (Scenario.get "example.com")
    = Some run
    /\ Run.outcome run = Fulfilled v.
Proof.
  eexists. eexists. split; [vm_compute; reflexivity|reflexivity].
Qed.

Lemma never_resolves_with_an_error_status_witness :
  exists run v,
    request 3
      (Scenario.hops 1 "/next" (Scenario.answer 204 [] [])) 0
      (Scenario.get "example.com")
    = Some run
    /\ Run.outcome run = Fulfilled v
    /\ RequestResult.status v < 400.
Proof.
  destruct redirect_then_no_content as (run & v & Hr & Hv).
  exists run, v. split; [exact Hr|]. split; [exact Hv|].
  exact (never_resolves_with_an_error_status (platform := node)
           (Scenario.hops 1 "/next" (Scenario.answer 204 [] [])) 3 0
           (Scenario.get "example.com") run v Hr Hv).
Defined.

(** X9: a transport error on a request that is live and whose promise is
    pending rejects the call with [{code: err.code, msg: err.syscall}];
    when no response comes after the error, that is the end of the call. *)
Theorem transport_error_rejects {platform : Platform} (fuel : nat)
  (net : Network) (k : nat) (co : CallerOptions.t) (u : string)
  (pre post : list Event) (code syscall : option string) :
  CallerOptions.url co = Some u ->
  net k (fst (resolve_call u (defaults co)))
  = Emits (pre ++ error code syscall :: post) ->
  Attempt.aborted (run pre (begin u (defaults co))) = false ->
  Attempt.promise (run pre (begin u (defaults co))) = Pending ->
  forallb (fun e => negb (is_response e)) post = true ->
  exists a,
    request (S fuel) net k co
    = Some (Run.make (Rejected (ErrorInfo code syscall)) [a]).
Proof.
  intros Hu Hn Hab Hp Hpost. exists (executor net k (defaults co)).
  pose proof (executor_emits net k (defaults co) u _ Hu Hn) as E.
  rewrite run_app in E.
  change (run (error code syscall :: post) ?s)
    with (run post (deliver s (error code syscall))) in E.
  set (st := run pre (begin u (defaults co))) in *.
  assert (Ed : deliver st (error code syscall) = on_error code syscall st).
  { unfold deliver. now rewrite Hab. }
  rewrite Ed in E.
  assert (Hf : Attempt.followup (executor net k (defaults co)) = false).
  { rewrite E, (run_without_response post _ Hpost). simpl.
    destruct (Attempt.followup st) eqn:Ef; [|reflexivity].
    unfold st in Ef, Hab.
    rewrite (run_followup_aborted pre (begin u (defaults co))) in Hab;
      [discriminate|discriminate|exact Ef]. }
  rewrite (request_single fuel net k co Hf), E.
  rewrite run_settled; simpl; rewrite Hp; [reflexivity|discriminate].
Qed.

Lemma transport_error_rejects_witness :
  exists a,
    request 1 (Scenario.always Sample.refused) 0 (Scenario.get "example.com")
    = Some (Run.make
              (Rejected (ErrorInfo (Some "ECONNREFUSED") (Some "connect")))
              [a]).
Proof.
  apply (transport_error_rejects (platform := node) 0
           (Scenario.always Sample.refused) 0 (Scenario.get "example.com")
           "example.com" [socket] [] (Some "ECONNREFUSED") (Some "connect")
           eq_refl eq_refl eq_refl eq_refl eq_refl).
Defined.

(** ** What a redirect does and does not do *)

Section Following.

Context {platform : Platform}.

Lemma run_never_follows (events : list Event) (st : Attempt.t) :
  RequestOptions.followRedirect (Attempt.requestOptions st) = false ->
  Attempt.followup st = false ->
  Attempt.followup (run events st) = false.
Proof.
  revert st. induction events as [|e events IH]; intros st Hr Hf; [exact Hf|].
  change (run (e :: events) st) with (run events (deliver st e)).
  apply IH.
  - destruct (deliver_fields st e) as (_ & _ & _ & H & _). cbv zeta in H.
    now rewrite H.
  - unfold deliver. destruct (Attempt.aborted st); [exact Hf|].
    destruct e; simpl; try exact Hf.
    + now destruct (fires (Attempt.armed st) ms).
    + destruct (Attempt.responded st); [exact Hf|].
      unfold on_response. simpl. rewrite Hr. simpl.
      destruct (redirection r); [exact Hf|].
      repeat match goal with
        | |- context [if ?b then _ else _] => destruct b
        end; exact Hf.
    + unfold on_data. now destruct (Attempt.collecting st).
    + unfold on_end. now destruct (Attempt.collecting st).
Qed.

End Following.

(** X10: with [followRedirect] false, or with [maxRedirects] at 0 or
    below, a call is one attempt whatever the transport emits: no response
    makes it call again. *)
Theorem no_follow_up_when_not_following {platform : Platform} (fuel : nat)
  (net : Network) (k : nat) (co : CallerOptions.t) :
  RequestOptions.followRedirect (defaults co) = false
  \/ RequestOptions.maxRedirects (defaults co) <= 0 ->
  request (S fuel) net k co
  = Some (Run.make (Attempt.promise (executor net k (defaults co)))
            [executor net k (defaults co)]).
Proof.
  intros H. apply request_single. destruct H as [H|H].
  - unfold executor. destruct (RequestOptions.url (defaults co)) as [u|];
      [|reflexivity].
    pose proof (resolve_call_options u (defaults co)) as (_ & Hf & _).
    destruct (resolve_call u (defaults co)) as [c r]. simpl in Hf.
    destruct (net k c) as [e|events]; [reflexivity|].
    apply run_never_follows; [|reflexivity]. simpl. now rewrite Hf.
  - destruct (executor_counter net k (defaults co)) as [Hs Hc].
    unfold counter_step in Hc. rewrite Hs in Hc.
    destruct (Attempt.followup (executor net k (defaults co)));
      [lia|reflexivity].
Qed.

Lemma no_follow_up_when_not_following_witness :
  request 5
    (Scenario.always (Scenario.answer 302 [("location", "/b")] ["x"])) 0
    (Sample.unfollowing "example.com")
  = Some (Run.make
            (Attempt.promise
               (executor
                  (Scenario.always
                     (Scenario.answer 302 [("location", "/b")] ["x"])) 0
                  (defaults (Sample.unfollowing "example.com"))))
            [executor
               (Scenario.always
                  (Scenario.answer 302 [("location", "/b")] ["x"])) 0
               (defaults (Sample.unfollowing "example.com"))]).
Proof.
  apply (no_follow_up_when_not_following (platform := node) 4
           (Scenario.always (Scenario.answer 302 [("location", "/b")] ["x"]))
           0 (Sample.unfollowing "example.com")).
  left. reflexivity.
Defined.

(** X11: a follow-up attempt sends what the first attempt sent.  Whatever
    happens during an attempt, the shared object keeps its method, body,
    content type, redirect switch and timeout; and for a method and a
    content type written in ASCII, which a second upper-casing leaves as
    they are, the follow-up call has the same method and the same payload,
    to whatever url it goes: a redirected POST is posted again.
    [toUpperCase] is any function that, on ASCII text, makes the letters
    a-z capital. *)
Theorem follow_up_sends_the_same_method_and_body {platform : Platform}
  (net : Network) (k : nat) (co : CallerOptions.t) (u u' : string) :
  let a := executor net k (defaults co) in
  let next := defaults (passed (Attempt.requestOptions a)) in
  (RequestOptions.method (Attempt.requestOptions a)
   = RequestOptions.method (defaults co)
   /\ RequestOptions.body (Attempt.requestOptions a)
      = RequestOptions.body (defaults co)
   /\ RequestOptions.contentType (Attempt.requestOptions a)
      = RequestOptions.contentType (defaults co)
   /\ RequestOptions.followRedirect (Attempt.requestOptions a)
      = RequestOptions.followRedirect (defaults co)
   /\ RequestOptions.timeout (Attempt.requestOptions a)
      = RequestOptions.timeout (defaults co))
  /\ ((forall s, Js.isAscii s = true -> toUpperCase s = Js.asciiUpperCase s) ->
      (forall m, CallerOptions.method co = Some m -> Js.isAscii m = true) ->
      (forall c, CallerOptions.contentType co = Some c ->
                 Js.isAscii c = true) ->
      RequestOptions.method next = RequestOptions.method (defaults co)
      /\ RequestOptions.contentType next
         = RequestOptions.contentType (defaults co)
      /\ Options.method (Call.options (fst (resolve_call u' next)))
         = Options.method (Call.options (fst (resolve_call u (defaults co))))
      /\ Call.postData (fst (resolve_call u' next))
         = Call.postData (fst (resolve_call u (defaults co)))).
Proof.
  intros a next.
  destruct (executor_fields net k (defaults co)) as (H1 & H2 & H3 & H4 & H5).
  fold a in H1, H2, H3, H4, H5. cbv zeta in *.
  split; [now repeat split|].
  intros Hup Hm Hc.
  assert (Em : RequestOptions.method next = RequestOptions.method (defaults co)).
  { unfold next. change (RequestOptions.method (defaults (passed ?r)))
      with (toUpperCase (RequestOptions.method r)).
    rewrite H1. unfold defaults. simpl.
    destruct (CallerOptions.method co) as [m|];
      [apply (toUpperCase_twice Hup), Hm; reflexivity|].
    now rewrite (Hup "GET" eq_refl). }
  assert (Eb : RequestOptions.body next = RequestOptions.body (defaults co))
    by exact H2.
  split; [exact Em|]. split.
  { unfold next. change (RequestOptions.contentType (defaults (passed ?r)))
      with (toUpperCase (RequestOptions.contentType r)).
    rewrite H3. unfold defaults. simpl.
    destruct (CallerOptions.contentType co) as [c|];
      [apply (toUpperCase_twice Hup), Hc; reflexivity|].
    now rewrite (Hup "FORM" eq_refl). }
  split.
  - now rewrite !resolve_call_method.
  - now rewrite !resolve_call_postData, Em, Eb.
Qed.

Lemma follow_up_sends_the_same_method_and_body_witness :
  Call.postData
    (fst (resolve_call "http://example.com/moved"
            (defaults
               (passed
                  (Attempt.requestOptions
                     (executor
                        (Scenario.hops 1 "/moved" (Scenario.answer 200 [] []))
                        0
                        (defaults
                           (Scenario.post "http://example.com/api" "json"
                              [("a", Js.Num 1)]))))))))
  = Call.postData
      (fst (resolve_call "http://example.com/api"
              (defaults
                 (Scenario.post "http://example.com/api" "json"
                    [("a", Js.Num 1)])))).
Proof.
  destruct (follow_up_sends_the_same_method_and_body (platform := node)
              (Scenario.hops 1 "/moved" (Scenario.answer 200 [] [])) 0
              (Scenario.post "http://example.com/api" "json" [("a", Js.Num 1)])
              "http://example.com/api" "http://example.com/moved")
    as [_ H].
  destruct H as (_ & _ & _ & H).
  - intros s _. reflexivity.
  - intros m [= <-]. reflexivity.
  - intros c [= <-]. reflexivity.
  - exact H.
Defined.

Example redirected_post_is_posted_again :
  option_map
    (fun run =>
       List.map
         (fun c => (Options.method (Call.options c),
                    Options.path (Call.options c), Call.postData c))
         (calls (Run.attempts run)))
    (request 3
       (Scenario.hops 1 "/moved" (Scenario.answer 200 [] []))
       0 (Scenario.post "http://example.com/api" "json" [("a", Js.Num 1)]))
  = Some [("POST", Some "/api", Some (Node.json [("a", Js.Num 1)]));
          ("POST", Some "/moved", Some (Node.json [("a", Js.Num 1)]))].
Proof. vm_compute. reflexivity. Qed.

(** X12: an absolute redirect that is followed goes to the location as
    it is: the request in flight is aborted, the counter is decremented
    (one is taken off it, exactly, when it is at most 2^53) and the url of
    the shared object becomes the location; a location
    that begins with [https://] sends the follow-up through the https
    module even when the first attempt used http, to port 443 unless it
    names a port.  The parser is any that reads the scheme of an https
    url. *)
Theorem absolute_redirect_goes_to_the_location {platform : Platform}
  (net : Network) (k : nat) (co : CallerOptions.t) (u : string)
  (r : Response.t) (rest : list Event) (location : string) :
  (forall s, Url.protocol (url_parse ("https://" ++ s)) = Some "https:") ->
  CallerOptions.url co = Some u ->
  net k (fst (resolve_call u (defaults co)))
  = Emits (socket :: response r :: rest) ->
  300 <= Response.statusCode r < 400 ->
  Response.location r = Some location ->
  Js.truthy (Some location) = true ->
  Js.truthy (Url.hostname (url_parse location)) = true ->
  RequestOptions.followRedirect (defaults co) = true ->
  0 < RequestOptions.maxRedirects (defaults co) ->
  let a := executor net k (defaults co) in
  Attempt.followup a = true
  /\ Attempt.aborted a = true
  /\ RequestOptions.url (Attempt.requestOptions a) = Some location
  /\ RequestOptions.maxRedirects (Attempt.requestOptions a)
     = Js.decrement (RequestOptions.maxRedirects (defaults co))
  /\ (RequestOptions.maxRedirects (defaults co) <= Js.exact ->
      RequestOptions.maxRedirects (Attempt.requestOptions a)
      = RequestOptions.maxRedirects (defaults co) - 1)
  /\ (String.prefix "https://" location = true ->
      exists c,
        Attempt.call
          (executor net (S k) (defaults (passed (Attempt.requestOptions a))))
        = Some c
        /\ Call.lib c = https
        /\ Options.hostname (Call.options c)
           = Url.hostname (url_parse location)
        /\ Options.port (Call.options c)
           = match Url.port (url_parse location) with
             | None => PortNumber 443
             | Some p => PortText p
             end).
Proof.
  intros Hhttps Hu Hn Hs Hloc Hne Habs Hf Hm a.
  assert (Hr : redirection r = Some location).
  { apply redirection_some. repeat split; try lia; try exact Hloc.
    intros ->. discriminate Hne. }
  pose proof (followed net k (defaults co) u r rest location Hu Hn Hr Hf Hm)
    as E.
  fold a in E.
  destruct (resolve_call_options u (defaults co)) as (_ & _ & Hc).
  assert (Ht : RequestOptions.url (Attempt.requestOptions a) = Some location).
  { rewrite E. unfold redirect. now rewrite Habs. }
  split; [now rewrite E|]. split; [now rewrite E|]. split; [exact Ht|].
  assert (Hd : RequestOptions.maxRedirects (Attempt.requestOptions a)
               = Js.decrement (RequestOptions.maxRedirects (defaults co))).
  { rewrite E. unfold redirect. simpl. now rewrite Hc. }
  split; [exact Hd|]. split.
  { intros Hex. rewrite Hd. apply decrement_exact. lia. }
  intros Hp.
  set (ro := defaults (passed (Attempt.requestOptions a))).
  assert (Hro : RequestOptions.url ro = Some location).
  { unfold ro. now rewrite (proj1 (defaults_passed _)). }
  exists (fst (resolve_call location ro)).
  split; [now apply executor_call|].
  destruct (prefix_split _ _ Hp) as [s ->].
  destruct (call_over_https Hhttps s ro) as [H1 H2].
  destruct (resolve_call_target ("https://" ++ s) ro) as (_ & H3 & _).
  rewrite backfill_with_scheme in H3
    by (rewrite prefix_app; apply orb_true_r).
  now repeat split.
Qed.

Lemma absolute_redirect_goes_to_the_location_witness :
  exists c,
    Attempt.call
      (executor
         (Scenario.hops 1 "https://secure.example.org/in"
            (Scenario.answer 200 [] []))
         1
         (defaults
            (passed
               (Attempt.requestOptions
                  (executor
                     (Scenario.hops 1 "https://secure.example.org/in"
                        (Scenario.answer 200 [] []))
                     0 (defaults (Scenario.get "http://example.com/a")))))))
    = Some c
    /\ Call.lib c = https
    /\ Options.hostname (Call.options c) = Some "secure.example.org"
    /\ Options.port (Call.options c) = PortNumber 443.
Proof.
  assert (H : 0 < RequestOptions.maxRedirects
                    (defaults (Scenario.get "http://example.com/a")))
    by (simpl; lia).
  assert (Hs : 300 <= 302 < 400) by lia.
  destruct (absolute_redirect_goes_to_the_location (platform := node)
              (Scenario.hops 1 "https://secure.example.org/in"
                 (Scenario.answer 200 [] []))
              0 (Scenario.get "http://example.com/a") "http://example.com/a"
              (Response.make 302 [("location", "https://secure.example.org/in")])
              [end_] "https://secure.example.org/in"
              node_parse_https eq_refl eq_refl Hs eq_refl eq_refl eq_refl
              eq_refl H)
    as (_ & _ & _ & _ & _ & H5).
  apply (H5 eq_refl).
Defined.

(** X13: a followed redirect is transparent: the call ends the way the
    follow-up call ends, resolved or rejected, and its attempts are the
    first attempt and then those of the follow-up. *)
Theorem followed_redirect_takes_the_follow_up_outcome {platform : Platform}
  (fuel : nat) (net : Network) (k : nat) (co : CallerOptions.t) (u : string)
  (r : Response.t) (rest : list Event) (location : string) :
  CallerOptions.url co = Some u ->
  net k (fst (resolve_call u (defaults co)))
  = Emits (socket :: response r :: rest) ->
  300 <= Response.statusCode r < 400 ->
  Response.location r = Some location ->
  Js.truthy (Some location) = true ->
  RequestOptions.followRedirect (defaults co) = true ->
  0 < RequestOptions.maxRedirects (defaults co) ->
  let a := executor net k (defaults co) in
  request (S fuel) net k co
  = match request fuel net (S k) (passed (Attempt.requestOptions a)) with
    | Some inner =>
        Some (Run.make (Run.outcome inner) (a :: Run.attempts inner))
    | None => None
    end.
Proof.
  intros Hu Hn Hs Hloc Hne Hf Hm a.
  assert (Hr : redirection r = Some location).
  { apply redirection_some. repeat split; try lia; try exact Hloc.
    intros ->. discriminate Hne. }
  pose proof (followed net k (defaults co) u r rest location Hu Hn Hr Hf Hm)
    as E.
  fold a in E.
  assert (Ha : Attempt.followup a = true /\ Attempt.promise a = Adopted)
    by (rewrite E; now split).
  destruct Ha as [Ha1 Ha2].
  change (request (S fuel) net k co)
    with (if Attempt.followup a
          then match request fuel net (S k)
                       (passed (Attempt.requestOptions a)) with
               | Some inner =>
                   Some (Run.make
                           (adopt (Attempt.promise a) (Run.outcome inner))
                           (a :: Run.attempts inner))
               | None => None
               end
          else Some (Run.make (Attempt.promise a) [a])).
  rewrite Ha1, Ha2. reflexivity.
Qed.

Example redirect_then_not_found :
  option_map Run.outcome
    (request 3
       (Scenario.hops 1 "/gone" (Scenario.answer 404 [] []))
       0 (Scenario.get "http://example.com/a"))
  = Some (Rejected (ErrorInfo (Some "ERR") (Some "CLIENT ERROR: 404"))).
Proof. vm_compute. reflexivity. Qed.

Lemma followed_redirect_takes_the_follow_up_outcome_witness :
  request 2 (Scenario.hops 1 "/gone" (Scenario.answer 404 [] [])) 0
    (Scenario.get "http://example.com/a")
  = match
      request 1 (Scenario.hops 1 "/gone" (Scenario.answer 404 [] [])) 1
        (passed
           (Attempt.requestOptions
              (executor (Scenario.hops 1 "/gone" (Scenario.answer 404 [] []))
                 0 (defaults (Scenario.get "http://example.com/a")))))
    with
    | Some inner =>
        Some (Run.make (Run.outcome inner)
                (executor (Scenario.hops 1 "/gone" (Scenario.answer 404 [] []))
                   0 (defaults (Scenario.get "http://example.com/a"))
                 :: Run.attempts inner))
    | None => None
    end.
Proof.
  assert (H : 0 < RequestOptions.maxRedirects
                    (defaults (Scenario.get "http://example.com/a")))
    by (simpl; lia).
  assert (Hs : 300 <= 302 < 400) by lia.
  apply (followed_redirect_takes_the_follow_up_outcome (platform := node) 1
           (Scenario.hops 1 "/gone" (Scenario.answer 404 [] [])) 0
           (Scenario.get "http://example.com/a") "http://example.com/a"
           (Response.make 302 [("location", "/gone")]) [end_] "/gone"
           eq_refl eq_refl Hs eq_refl eq_refl eq_refl H).
Defined.

(** X14: when the JSON text of the body is ASCII, the [Content-Length]
    that a request with a body and a method other than GET declares is the
    number of octets of the payload it writes. *)
Theorem content_length_is_right_for_ascii_text {platform : Platform}
  (net : Network) (k : nat) (co : CallerOptions.t) (u : string)
  (b : Js.Object) :
  CallerOptions.url co = Some u ->
  CallerOptions.body co = Some b ->
  RequestOptions.method (defaults co) <> "GET" ->
  Node.all (fun c => (nat_of_ascii c <? 128)%nat) (JSON_stringify b) = true ->
  exists c payload,
    Attempt.call (executor net k (defaults co)) = Some c
    /\ Call.postData c = Some payload
    /\ Js.get (Options.headers (Call.options c)) "Content-Length"
       = Some (Js.Num (Z.of_nat (Js.byteLength payload))).
Proof.
  intros Hu Hb Hm Ha.
  exists (fst (resolve_call u (defaults co))), (JSON_stringify b).
  split; [now apply executor_call|].
  destruct (resolve_call_payload u (defaults co) b Hb Hm) as (H1 & _ & H3).
  split; [exact H1|]. now rewrite H3, (length_ascii_text _ Ha).
Qed.

Lemma content_length_is_right_for_ascii_text_witness :
  exists c payload,
    Attempt.call
      (executor (Scenario.always (Scenario.answer 200 [] [])) 0
         (defaults
            (Scenario.post "http://example.com/api" "json"
               [("msg", Js.Str "Post test"); ("number", Js.Num 1968)])))
    = Some c
    /\ Call.postData c = Some payload
    /\ Js.get (Options.headers (Call.options c)) "Content-Length"
       = Some (Js.Num (Z.of_nat (Js.byteLength payload))).
Proof.
  apply (content_length_is_right_for_ascii_text (platform := node)
           (Scenario.always (Scenario.answer 200 [] [])) 0
           (Scenario.post "http://example.com/api" "json"
              [("msg", Js.Str "Post test"); ("number", Js.Num 1968)])
           "http://example.com/api"
           [("msg", Js.Str "Post test"); ("number", Js.Num 1968)]
           eq_refl eq_refl).
  - simpl. discriminate.
  - reflexivity.
Defined.
